(** * Batch portrait generator: a shallow embedding of [batch_portraits_v2.py]

    The script reads a CSV of subject names, builds one prompt per subject,
    calls an image provider ([images.edit] with a style reference,
    [images.generate] without), decodes the base64 payload and writes it to
    [out_dir / "<name with underscores>.<format>"], sleeping after every
    subject.

    Python values are modelled as the code has them: a [str] is a list of
    Unicode code points, [bytes] is a list of bytes, the rows yielded by
    [csv.DictReader] are dictionaries, exceptions are values carried by an
    error monad, and everything outside the process (provider, file system,
    clock) is a field of an environment record that is consulted with the
    history of the run so far.

    The console takes every line, and a line is kept by the values its
    f-string interpolates.  Nothing outside raises [KeyboardInterrupt] or
    another [BaseException] that is no [Exception]; the only such
    exception of a run is the [SystemExit] that [main] raises itself. *)

From Stdlib Require Import Floats NArith Strings.String Strings.Ascii Strings.Byte.
From Stdlib Require Import DecimalString.
From stdpp Require Import gmap list.

(* ===================================================================== *)
(** * Python strings *)
(* ===================================================================== *)

Module Py.

(** A [str] is a sequence of code points. *)
Abbreviation str := (list N).

(** A string literal of the source (ASCII only). *)
Definition lit (s : String.string) : str :=
  N_of_ascii <$> list_ascii_of_string s.

(** [str(n)] for a non-negative integer. *)
Definition str_of_N (n : N) : str :=
  lit (NilEmpty.string_of_uint (N.to_uint n)).

(** [c.isspace()]: the code points CPython treats as whitespace. *)
Definition isspace (c : N) : bool :=
  (((9 <=? c) && (c <=? 13)) || ((28 <=? c) && (c <=? 32))
   || (c =? 133) || (c =? 160) || (c =? 5760)
   || ((8192 <=? c) && (c <=? 8202))
   || (c =? 8232) || (c =? 8233) || (c =? 8239) || (c =? 8287)
   || (c =? 12288))%N.

Fixpoint lstrip (s : str) : str :=
  match s with
  | c :: s' => if isspace c then lstrip s' else s
  | [] => []
  end.

Definition rstrip (s : str) : str := rev (lstrip (rev s)).

(** [s.strip()] *)
Definition strip (s : str) : str := rstrip (lstrip s).

(** [s.replace(old, new)] for one-character [old] and [new]. *)
Definition replace (old new : N) (s : str) : str :=
  (λ c, if (c =? old)%N then new else c) <$> s.

(** [s.lower()] on the ASCII letters (all that the three format names,
    the only strings it is applied to, can contain). *)
Definition lower (s : str) : str :=
  (λ c, if ((65 <=? c) && (c <=? 90))%N then (c + 32)%N else c) <$> s.

(** Truth value of a string or a byte string: non-empty. *)
Definition truthy {A} (s : list A) : bool :=
  match s with [] => false | _ :: _ => true end.

(** [needle in hay] on strings. *)
Fixpoint startswith (p s : str) : bool :=
  match p, s with
  | [], _ => true
  | a :: p', b :: s' => (a =? b)%N && startswith p' s'
  | _ :: _, [] => false
  end.

Fixpoint contains (hay needle : str) : bool :=
  startswith needle hay ||
  match hay with
  | [] => false
  | _ :: hay' => contains hay' needle
  end.

End Py.

Abbreviation space := 32%N (only parsing).
Abbreviation underscore := 95%N (only parsing).

(* ===================================================================== *)
(** * The prompt builder *)
(* ===================================================================== *)

Definition prompt_head : Py.str := Py.lit "
Create a clean, blue-ink portrait in the exact style of the provided reference image:
- single-color ink drawing and bold contour lines
- clean white background
- Slightly Imperfect, Human
Subject: ".

Definition prompt_tail : Py.str := Py.lit ".
Clothes: Usual Clothing associated with this person.  Do NOT copy the clothes from the Referance Photo. 
Expression: Usual expression associated with this persons charater. keep the face CLEAN from marks.
Bonus points (Extra Money): if the person is an Actor for tv series or film.  then draw them from there most popular show / film.
Framing: FACE ONLY! NO SHOULDERS, Tight crop on the face, centered. 1:1 square composition with generous WHITE SPACE ABOVE THE HEAD.
Important: Use the first input image only as a STYLE REFERENCE. Do NOT copy that person's identity or their features or clothes.
minimal shading on face.  
".

(** [make_prompt(person_name)]: the f-string with its single hole. *)
Definition make_prompt (person_name : Py.str) : Py.str :=
  prompt_head ++ person_name ++ prompt_tail.

(* ===================================================================== *)
(** * Exceptions *)
(* ===================================================================== *)

(** The subclasses of [Exception] that occur in a run.  [APIError] stands
    for whatever the provider client raises that is not a [TypeError]. *)
Inductive exc_class :=
  | TypeError | AttributeError | KeyError | IndexError
  | ValueError | BinasciiError | OSError | APIError.

Record exception := Exc { exc_class_of : exc_class; exc_msg : Py.str }.

(** What can unwind the stack: an [Exception], which [except Exception]
    catches, or [SystemExit], which it does not. *)
Inductive raised :=
  | Exn (e : exception)
  | SystemExit (msg : Py.str).

(** A computation without effects that may raise. *)
Definition result (A : Type) : Type := raised + A.

(** Sequencing, shared by the pure and the effectful computations. *)
Class Monad (M : Type → Type) := {
  ret : ∀ {A}, A → M A;
  bind : ∀ {A B}, M A → (A → M B) → M B
}.

Notation "x <- m ;; k" := (bind m (λ x, k))
  (at level 100, m at next level, k at level 200, right associativity).
Notation "m ;;; k" := (bind m (λ _, k))
  (at level 100, k at level 200, right associativity).

#[global] Instance result_monad : Monad result := {|
  ret := λ _ x, inr x;
  bind := λ _ _ m f, match m with inl r => inl r | inr x => f x end
|}.

Definition throw {A} (c : exc_class) (msg : String.string) : result A :=
  inl (Exn (Exc c (Py.lit msg))).

(** Does [except TypeError] match? *)
Definition is_TypeError (e : exception) : bool :=
  match exc_class_of e with TypeError => true | _ => false end.

(* ===================================================================== *)
(** * Rows of the input table *)
(* ===================================================================== *)

(** The values a [csv.DictReader] row can hold: a field, [None] (the
    [restval] of a short row) or a list (the surplus fields of a long row,
    stored under the key [None]). *)
Inductive value :=
  | VStr (s : Py.str)
  | VNone
  | VList (l : list Py.str).

(** A row: keys are field names, or [None] (the [restkey]). *)
Abbreviation dict := (gmap (option Py.str) value).

(** [DictReader.__next__] on one non-empty record:
    [d = dict(zip(fieldnames, row))], then the surplus goes under
    [restkey], or the missing fields are set to [restval]. *)
Definition dict_of_record (fieldnames record : list Py.str) : dict :=
  let d := foldl (λ (d : dict) kv, <[Some kv.1 := VStr kv.2]> d) ∅
             (zip fieldnames record) in
  let lf := length fieldnames in
  let lr := length record in
  if Nat.ltb lf lr then <[None := VList (drop lf record)]> d
  else if Nat.ltb lr lf then
    foldl (λ (d : dict) key, <[Some key := VNone]> d) d (drop lr fieldnames)
  else d.

(** Iterating the reader after the header: empty records (blank lines)
    are passed over, the others become dictionaries. *)
Definition dict_rows (fieldnames : list Py.str) (records : list (list Py.str))
  : list dict :=
  dict_of_record fieldnames <$> List.filter Py.truthy records.

(** [v.strip()] on a dictionary value. *)
Definition method_strip (v : value) : result Py.str :=
  match v with
  | VStr s => ret (Py.strip s)
  | VNone => throw AttributeError "'NoneType' object has no attribute 'strip'"
  | VList _ => throw AttributeError "'list' object has no attribute 'strip'"
  end.

(** [r.get(key, dflt)] *)
Definition dict_get (r : dict) (key : Py.str) (dflt : value) : value :=
  default dflt (r !! Some key).

(** [row[key]] *)
Definition getitem (r : dict) (key : Py.str) : result value :=
  match r !! Some key with
  | Some v => ret v
  | None => inl (Exn (Exc KeyError key))
  end.

Definition name_key : Py.str := Py.lit "name".

(** The condition of the comprehension: [r.get("name", "").strip()]. *)
Definition keep_row (r : dict) : result bool :=
  s <- method_strip (dict_get r name_key (VStr []));; ret (Py.truthy s).

(** [[r for r in reader if r.get("name", "").strip()]] *)
Fixpoint comprehension (rows : list dict) : result (list dict) :=
  match rows with
  | [] => ret []
  | r :: rs =>
      b <- keep_row r;;
      l <- comprehension rs;;
      ret (if b then r :: l else l)
  end.

(** The "Load CSV" block, on the records [csv.reader] yields for the file:
    the first record is the header ([reader.fieldnames], [None] for a file
    without records). *)
Definition load_rows (records : list (list Py.str)) : result (list dict) :=
  match records with
  | [] => throw TypeError "argument of type 'NoneType' is not iterable"
  | fieldnames :: rest =>
      if bool_decide (name_key ∈ fieldnames)
      then comprehension (dict_rows fieldnames rest)
      else inl (SystemExit (Py.lit "CSV must have a header column named 'name'"))
  end.

(** [row["name"].strip()] in the loop. *)
Definition person_name_of (row : dict) : result Py.str :=
  v <- getitem row name_key;; method_strip v.

(* ===================================================================== *)
(** * [base64.b64decode] *)
(* ===================================================================== *)

Module Base64.

(** Value of a character of the standard alphabet. *)
Definition index (c : N) : option N :=
  (if (65 <=? c) && (c <=? 90) then Some (c - 65)
   else if (97 <=? c) && (c <=? 122) then Some (c - 71)
   else if (48 <=? c) && (c <=? 57) then Some (c + 4)
   else if c =? 43 then Some 62
   else if c =? 47 then Some 63
   else None)%N.

(** Storing into an [unsigned char]. *)
Definition to_byte (n : N) : byte :=
  default x00 (Byte.of_N (N.land n 255)).

(** The loop of [binascii.a2b_base64] without [strict_mode]: characters
    outside the alphabet are passed over; a pad ends the input once it
    completes a quad; [quad_pos] data characters left over are an error. *)
Fixpoint a2b (s : Py.str) (quad_pos leftchar pads : N) (out : list byte)
  : result (list byte) :=
  match s with
  | [] =>
      if (quad_pos =? 0)%N then ret out
      else if (quad_pos =? 1)%N
      then throw BinasciiError "Invalid base64-encoded string"
      else throw BinasciiError "Incorrect padding"
  | c :: s' =>
      if (c =? 61)%N then
        if (2 <=? quad_pos)%N then
          if (4 <=? quad_pos + (pads + 1))%N then ret out
          else a2b s' quad_pos leftchar (pads + 1)%N out
        else a2b s' quad_pos leftchar pads out
      else
        match index c with
        | None => a2b s' quad_pos leftchar pads out
        | Some v =>
            match quad_pos with
            | 0%N => a2b s' 1%N v 0%N out
            | 1%N =>
                a2b s' 2%N (N.land v 15) 0%N
                  (out ++ [to_byte (N.lor (N.shiftl leftchar 2) (N.shiftr v 4))])
            | 2%N =>
                a2b s' 3%N (N.land v 3) 0%N
                  (out ++ [to_byte (N.lor (N.shiftl leftchar 4) (N.shiftr v 2))])
            | _ =>
                a2b s' 0%N 0%N 0%N
                  (out ++ [to_byte (N.lor (N.shiftl leftchar 6) v)])
            end
        end
  end.

(** [base64.b64decode(s)] with the default [validate=False], on the value
    of [b64_json]: [None] is no bytes-like object, a string must be ASCII. *)
Definition b64decode (s : option Py.str) : result (list byte) :=
  match s with
  | None =>
      throw TypeError
        "argument should be a bytes-like object or ASCII string, not 'NoneType'"
  | Some s =>
      if forallb (λ c, c <? 128)%N s then a2b s 0 0 0 []
      else throw ValueError "string argument should contain only ASCII characters"
  end.

End Base64.

(** The encoding side, to say what the decoder recovers. *)
Module B64Ref.

(** The character of a six-bit value in the standard alphabet. *)
Definition char (v : N) : N :=
  (if v <? 26 then v + 65
   else if v <? 52 then v + 71
   else if v <? 62 then v - 4
   else if v =? 62 then 43 else 47)%N.

(** The four six-bit values of three bytes. *)
Definition sextet0 (x : N) : N := N.shiftr x 2.
Definition sextet1 (x y : N) : N := N.lor (N.shiftl (N.land x 3) 4) (N.shiftr y 4).
Definition sextet2 (y z : N) : N := N.lor (N.shiftl (N.land y 15) 2) (N.shiftr z 6).
Definition sextet3 (z : N) : N := N.land z 63.

(** [base64.b64encode], the encoding a payload is produced with: three
    bytes become four characters; a last group of one or two bytes is
    filled with zero bits and padded with [=]. *)
Fixpoint b2a (bs : list byte) : Py.str :=
  match bs with
  | [] => []
  | [a] =>
      let x := Byte.to_N a in
      [char (sextet0 x); char (sextet1 x 0); 61%N; 61%N]
  | [a; b] =>
      let x := Byte.to_N a in
      let y := Byte.to_N b in
      [char (sextet0 x); char (sextet1 x y); char (sextet2 y 0); 61%N]
  | a :: b :: c :: rest =>
      let x := Byte.to_N a in
      let y := Byte.to_N b in
      let z := Byte.to_N c in
      [char (sextet0 x); char (sextet1 x y); char (sextet2 y z); char (sextet3 z)]
      ++ b2a rest
  end.

(** What the decoder relies on, for two byte values. *)
Definition regroups (x y : N) : bool :=
  ((sextet0 x <? 64) && (sextet1 x y <? 64) && (sextet2 x y <? 64)
   && (sextet3 y <? 64)
   && (N.land (N.lor (N.shiftl (sextet0 x) 2) (N.shiftr (sextet1 x y) 4)) 255 =? x)
   && (N.land (sextet1 x y) 15 =? N.shiftr y 4)
   && (N.shiftr (sextet2 x y) 2 =? N.land x 15)
   && (N.land (sextet2 x y) 3 =? N.shiftr y 6)
   && (N.land (N.lor (N.shiftl (N.shiftr y 4) 4) (N.land y 15)) 255 =? y)
   && (N.land (N.lor (N.shiftl (N.shiftr y 6) 6) (sextet3 y)) 255 =? y))%N.

End B64Ref.

(* ===================================================================== *)
(** * Run configuration, requests, responses *)
(* ===================================================================== *)

(** The values [argparse] admits for [--size], [--format], [--quality]. *)
Inductive size_choice := S1024 | S1536 | S2048.
Inductive format_choice := Png | Jpeg | Webp.
Inductive quality_choice := Low | Medium | High | Auto.

Definition size_value (s : size_choice) : N :=
  match s with S1024 => 1024 | S1536 => 1536 | S2048 => 2048 end.

Definition format_name (f : format_choice) : Py.str :=
  match f with
  | Png => Py.lit "png" | Jpeg => Py.lit "jpeg" | Webp => Py.lit "webp"
  end.

Definition quality_name (q : quality_choice) : Py.str :=
  match q with
  | Low => Py.lit "low" | Medium => Py.lit "medium"
  | High => Py.lit "high" | Auto => Py.lit "auto"
  end.

(** The parsed command line. *)
Module Args.

Record t := {
  csv : Py.str;
  style : option Py.str;
  out : Py.str;
  size : size_choice;
  sleep : float;
  format : format_choice;
  quality : quality_choice
}.

End Args.

(** [out_dir / text]: the two operands of the join.  Equal operands give
    the same path.  What pathlib makes of the text is not modelled: a text
    with a separator, [.], [..] or a leading [/] may name a file that
    another pair names too, or one that does not lie in the directory. *)
Abbreviation path := (Py.str * Py.str)%type.

(** Keyword arguments of [client.images.edit]. *)
Record edit_request := {
  edit_model : Py.str;
  edit_image : list byte;
  edit_image_name : Py.str;
  edit_prompt : Py.str;
  edit_size : Py.str;
  edit_output_format : Py.str
}.

(** Keyword arguments of [client.images.generate]; [gen_quality] is [None]
    when the call passes no [quality]. *)
Record generate_request := {
  gen_model : Py.str;
  gen_prompt : Py.str;
  gen_size : Py.str;
  gen_quality : option Py.str;
  gen_output_format : Py.str
}.

Inductive request :=
  | Edit (r : edit_request)
  | Generate (r : generate_request).

(** What the provider client returns. *)
Record image := { b64_json : option Py.str }.
Record images_response := { data : option (list image) }.

(** [result.data[0].b64_json] *)
Definition first_b64 (r : images_response) : result (option Py.str) :=
  match data r with
  | None => throw TypeError "'NoneType' object is not subscriptable"
  | Some [] => throw IndexError "list index out of range"
  | Some (img :: _) => ret (b64_json img)
  end.

(* ===================================================================== *)
(** * The world: files, console, provider, clock *)
(* ===================================================================== *)

(** Console lines, by the values their f-strings interpolate. *)
Inductive line :=
  | ModeStyleRef
  | ModeTextOnly (q : Py.str)
  | Progress (i total : nat) (person_name : Py.str) (out_path : path)
  | ErrorLine (person_name : Py.str) (e : exception)
  | DoneLine (out_dir : Py.str).

(** What the process does to the outside, in order. *)
Inductive event :=
  | Print (l : line)
  | Request (r : request)
  | OpenWb (p : path)
  | Write (p : path) (content : list byte)
  | Sleep (seconds : float).

Record world := {
  files : gmap path (list byte);
  trace : list event
}.

(** The world after one more event, and after a file took a content. *)
Definition log (e : event) (w : world) : world :=
  {| files := files w; trace := trace w ++ [e] |}.

Definition store (p : path) (content : list byte) (w : world) : world :=
  {| files := <[p := content]> (files w); trace := trace w |}.

(** The outside.  The provider and the file system answer knowing the
    history of the run, so the same call may fare differently each time. *)
Record env := {
  (** [out_dir.mkdir(parents=True, exist_ok=True)] *)
  mkdir : Py.str → option exception;
  (** [OpenAI()] *)
  new_client : option exception;
  (** the records [csv.reader] yields for the file at a path *)
  csv_records : Py.str → exception + list (list Py.str);
  (** [open(p, "rb").read()] *)
  read_binary : Py.str → exception + list byte;
  (** [Path(p).name] *)
  path_name : Py.str → Py.str;
  images_edit : list event → edit_request → exception + images_response;
  images_generate : list event → generate_request → exception + images_response;
  (** [open(p, "wb")]: [None] when the file was opened *)
  open_wb : list event → path → option exception;
  (** [img_f.write(content)] and the close that ends the [with] block:
      [Some (k, e)] when [e] was raised with [k] bytes in the file *)
  write_close : list event → path → list byte → option (nat * exception);
  (** [time.sleep(seconds)]: [None] when it returned *)
  time_sleep : float → option exception
}.

(** Computations on the world that may raise. *)
Definition M (A : Type) : Type := world → result A * world.

#[global] Instance M_monad : Monad M := {|
  ret := λ _ x w, (inr x, w);
  bind := λ _ _ m f w,
    match m w with
    | (inl r, w') => (inl r, w')
    | (inr x, w') => f x w'
    end
|}.

Definition lift {A} (r : result A) : M A := λ w, (r, w).

Definition raise {A} (e : exception) : M A := lift (inl (Exn e)).

Definition of_sum {A} (s : exception + A) : M A :=
  match s with inl e => raise e | inr x => ret x end.

Definition raise_if (o : option exception) : M unit :=
  match o with Some e => raise e | None => ret tt end.

Definition emit (e : event) : M unit := λ w, (inr tt, log e w).

Definition history : M (list event) := λ w, (inr (trace w), w).

Definition set_file (p : path) (content : list byte) : M unit := λ w,
  (inr tt, store p content w).

Definition print (l : line) : M unit := emit (Print l).

(** [try: body  except C as e: handler(e)], [C] given by [catches]. *)
Definition try_except {A} (catches : exception → bool)
    (body : M A) (handler : exception → M A) : M A := λ w,
  match body w with
  | (inl (Exn e), w') =>
      if catches e then handler e w' else (inl (Exn e), w')
  | other => other
  end.

(** [try: body  finally: final] *)
Definition try_finally {A} (body : M A) (final : M unit) : M A := λ w,
  match body w with
  | (r, w') =>
      match final w' with
      | (inl x, w'') => (inl x, w'')
      | (inr _, w'') => (r, w'')
      end
  end.

(** [for i, x in enumerate(l, i): body] *)
Fixpoint for_enumerate {A} (body : nat → A → M unit) (i : nat) (l : list A)
  : M unit :=
  match l with
  | [] => ret tt
  | x :: l' => body i x;;; for_enumerate body (S i) l'
  end.

Section Runner.

Variable E : env.

Definition call_edit (r : edit_request) : M images_response :=
  h <- history;;
  emit (Request (Edit r));;;
  of_sum (images_edit E h r).

Definition call_generate (r : generate_request) : M images_response :=
  h <- history;;
  emit (Request (Generate r));;;
  of_sum (images_generate E h r).

(** [open(p, "wb")]: the file is created, or emptied, when it is opened. *)
Definition open_for_write (p : path) : M unit :=
  h <- history;;
  emit (OpenWb p);;;
  match open_wb E h p with
  | Some e => raise e
  | None => set_file p []
  end.

Definition write_and_close (p : path) (content : list byte) : M unit :=
  h <- history;;
  emit (Write p content);;;
  match write_close E h p content with
  | None => set_file p content
  | Some (k, e) => set_file p (take k content);;; raise e
  end.

Definition sleep (seconds : float) : M unit :=
  emit (Sleep seconds);;;
  raise_if (time_sleep E seconds).

(* ===================================================================== *)
(** * [main] *)
(* ===================================================================== *)

Variable args : Args.t.

(** [f"{args.size}x{args.size}"] *)
Definition size_str : Py.str :=
  Py.str_of_N (size_value (Args.size args)) ++ Py.lit "x"
  ++ Py.str_of_N (size_value (Args.size args)).

Definition output_format : Py.str := Py.lower (format_name (Args.format args)).

(** [out_dir / f"{person_name.replace(' ', '_')}.{args.format.lower()}"] *)
Definition out_path_of (person_name : Py.str) : path :=
  (Args.out args,
   Py.replace space underscore person_name ++ Py.lit "." ++ output_format).

Definition model : Py.str := Py.lit "gpt-image-1".

(** [Path(args.style).name] *)
Definition style_name : result Py.str :=
  match Args.style args with
  | Some p => ret (path_name E p)
  | None => throw TypeError "expected str, bytes or os.PathLike object, not NoneType"
  end.

(** Lines 83 to 108: the request, by mode. *)
Definition request_image (style_bytes : option (list byte)) (prompt : Py.str)
  : M images_response :=
  match style_bytes with
  | Some (b :: bs) =>
      name <- lift style_name;;
      call_edit {| edit_model := model;
                   edit_image := b :: bs;
                   edit_image_name := name;
                   edit_prompt := prompt;
                   edit_size := size_str;
                   edit_output_format := output_format |}
  | _ =>
      try_except is_TypeError
        (call_generate {| gen_model := model;
                          gen_prompt := prompt;
                          gen_size := size_str;
                          gen_quality := Some (quality_name (Args.quality args));
                          gen_output_format := output_format |})
        (λ _, call_generate {| gen_model := model;
                               gen_prompt := prompt;
                               gen_size := size_str;
                               gen_quality := None;
                               gen_output_format := output_format |})
  end.

(** The body of the outer [try] (lines 83 to 112). *)
Definition attempt (style_bytes : option (list byte)) (prompt : Py.str)
    (out_path : path) : M unit :=
  result <- request_image style_bytes prompt;;
  b64 <- lift (first_b64 result);;
  open_for_write out_path;;;
  content <- lift (Base64.b64decode b64);;
  write_and_close out_path content.

(** What follows the progress line: [try], [except Exception], [finally]. *)
Definition guarded (style_bytes : option (list byte)) (person_name : Py.str)
  : M unit :=
  try_finally
    (try_except (λ _, true)
       (attempt style_bytes (make_prompt person_name) (out_path_of person_name))
       (λ e, print (ErrorLine person_name e)))
    (sleep (Args.sleep args)).

(** One pass of the loop (lines 77 to 117). *)
Definition iteration (style_bytes : option (list byte)) (total i : nat)
    (row : dict) : M unit :=
  person_name <- lift (person_name_of row);;
  print (Progress i total person_name (out_path_of person_name));;;
  guarded style_bytes person_name.

(** Lines 68 to 74. *)
Definition load_style : M (option (list byte)) :=
  match Args.style args with
  | Some (c :: p) =>
      style_bytes <- of_sum (read_binary E (c :: p));;
      print ModeStyleRef;;;
      ret (Some style_bytes)
  | _ =>
      print (ModeTextOnly (quality_name (Args.quality args)));;;
      ret None
  end.

Definition batch (style_bytes : option (list byte)) (rows : list dict) : M unit :=
  for_enumerate (iteration style_bytes (length rows)) 1 rows.

Definition main : M unit :=
  raise_if (mkdir E (Args.out args));;;
  raise_if (new_client E);;;
  records <- of_sum (csv_records E (Args.csv args));;
  rows <- lift (load_rows records);;
  style_bytes <- load_style;;
  batch style_bytes rows;;;
  print (DoneLine (Args.out args)).

End Runner.

(** A run of the process: the console starts empty. *)
Definition run (E : env) (args : Args.t) (fs : gmap path (list byte))
  : result unit * world :=
  main E args {| files := fs; trace := [] |}.

(* ===================================================================== *)
(** * Concrete environments *)
(* ===================================================================== *)

(** A response holding one image with the given payload. *)
Definition reply (payload : String.string) : images_response :=
  {| data := Some [ {| b64_json := Some (Py.lit payload) |} ] |}.

(** An outside built from the input table and the provider; the file
    system accepts every write and the clock every delay. *)
Definition calm (records : list (list Py.str))
    (edit : list event → edit_request → exception + images_response)
    (generate : list event → generate_request → exception + images_response)
  : env :=
  {| mkdir := λ _, None;
     new_client := None;
     csv_records := λ _, inr records;
     read_binary := λ _, inr [x89; x50; x4e; x47]%byte;
     path_name := λ p, p;
     images_edit := edit;
     images_generate := generate;
     open_wb := λ _ _, None;
     write_close := λ _ _ _, None;
     time_sleep := λ _, None |}.

Definition args0 : Args.t :=
  {| Args.csv := Py.lit "actors.csv";
     Args.style := None;
     Args.out := Py.lit "out";
     Args.size := S1024;
     Args.sleep := 0.5%float;
     Args.format := Png;
     Args.quality := High |}.

Definition table0 : list (list Py.str) :=
  [[Py.lit "name"]; [Py.lit "Jane Doe"]; [Py.lit "   "]; [Py.lit " Bob "]].

Definition env0 : env :=
  calm table0 (λ _ _, inr (reply "SGk=")) (λ _ _, inr (reply "SGk=")).

(** A client whose [images.generate] does not know the [quality] keyword
    and raises [TypeError] when it is passed. *)
Definition rejects_quality (h : list event) (g : generate_request)
  : exception + images_response :=
  match gen_quality g with
  | Some _ =>
      inl (Exc TypeError
             (Py.lit "generate() got an unexpected keyword argument 'quality'"))
  | None => inr (reply "SGk=")
  end.

Definition env_old_client : env :=
  calm table0 (λ _ _, inr (reply "SGk=")) rejects_quality.

(** A provider that answers without a payload ([b64_json] is [None]). *)
Definition no_payload : images_response :=
  {| data := Some [ {| b64_json := None |} ] |}.

Definition env_no_payload : env :=
  calm table0 (λ _ _, inr no_payload) (λ _ _, inr no_payload).

(** A provider that is down. *)
Definition unavailable : exception := Exc APIError (Py.lit "503").

Definition env_down : env :=
  calm table0 (λ _ _, inl unavailable) (λ _ _, inl unavailable).

(** A client that knows no [quality] and then fails on the retry too. *)
Definition env_old_client_down : env :=
  calm table0 (λ _ _, inl unavailable)
    (λ _ g, match gen_quality g with
            | Some _ => inl (Exc TypeError (Py.lit "unexpected keyword argument"))
            | None => inl unavailable
            end).

Definition jane : Py.str := Py.lit "Jane Doe".

(** A world in which Jane's portrait exists from an earlier run. *)
Definition world_old : world :=
  {| files := {[ (Py.lit "out", Py.lit "Jane_Doe.png") := [x01; x02]%byte ]};
     trace := [] |}.

Definition world0 : world := {| files := ∅; trace := [] |}.

(** Two subjects whose names differ only in space against underscore,
    and a provider that draws them differently. *)
Definition table_twins : list (list Py.str) :=
  [[Py.lit "name"]; [Py.lit "Jane Doe"]; [Py.lit "Jane_Doe"]].

Definition env_twins : env :=
  calm table_twins (λ _ _, inr (reply "SGk="))
    (λ _ g, if Py.contains (gen_prompt g) (Py.lit "Subject: Jane Doe.")
            then inr (reply "QQ==") else inr (reply "Qg==")).

(** A table whose second row stops before the name column. *)
Definition table_short : list (list Py.str) :=
  [[Py.lit "id"; Py.lit "name"];
   [Py.lit "1"; Py.lit "Jane Doe"];
   [Py.lit "2"]].

Definition env_short : env :=
  calm table_short (λ _ _, inr (reply "SGk=")) (λ _ _, inr (reply "SGk=")).

(** The outside of [env0], but the style file holds no byte. *)
Definition env_empty_style : env :=
  {| mkdir := mkdir env0;
     new_client := new_client env0;
     csv_records := csv_records env0;
     read_binary := λ _, inr [];
     path_name := path_name env0;
     images_edit := images_edit env0;
     images_generate := images_generate env0;
     open_wb := open_wb env0;
     write_close := write_close env0;
     time_sleep := time_sleep env0 |}.

(** The batch of [table0]: Jane Doe and Bob (the blank row is dropped). *)
Definition rows0 : list dict :=
  [dict_of_record [Py.lit "name"] [Py.lit "Jane Doe"];
   dict_of_record [Py.lit "name"] [Py.lit " Bob "]].

(** The same command line with [--style ref.png]. *)
Definition args_style : Args.t :=
  {| Args.csv := Py.lit "actors.csv";
     Args.style := Some (Py.lit "ref.png");
     Args.out := Py.lit "out";
     Args.size := S1024;
     Args.sleep := 0.5%float;
     Args.format := Png;
     Args.quality := High |}.

(* ===================================================================== *)
(** * Reading a trace *)
(* ===================================================================== *)

(** The requests of a trace, in order. *)
Definition requests (tr : list event) : list request :=
  omap (λ e, match e with Request r => Some r | _ => None end) tr.

(** The subjects whose pass of the loop began, by their progress lines. *)
Definition attempted (tr : list event) : list Py.str :=
  omap (λ e, match e with
             | Print (Progress _ _ person_name _) => Some person_name
             | _ => None
             end) tr.

(** The names of the rows of a batch, as the loop computes them. *)
Definition subject_names (rows : list dict) : list Py.str :=
  omap (λ row, match person_name_of row with
               | inr n => Some n
               | inl _ => None
               end) rows.

(** A row whose name is a string that is not blank. *)
Definition has_name (row : dict) : bool :=
  match row !! Some name_key with
  | Some (VStr s) => Py.truthy (Py.strip s)
  | _ => false
  end.

(** A record that is a blank line, or has a field for every column. *)
Definition complete (fieldnames record : list Py.str) : Prop :=
  record = [] ∨ length fieldnames ≤ length record.

(** A row from which the loop can take a name. *)
Definition named (row : dict) : Prop := ∃ n, person_name_of row = inr n.

(** The subjects for which an error line was printed. *)
Definition failed (tr : list event) : list Py.str :=
  omap (λ e, match e with
             | Print (ErrorLine person_name _) => Some person_name
             | _ => None
             end) tr.

(** The writes, in order. *)
Definition writes (tr : list event) : list (path * list byte) :=
  omap (λ e, match e with Write p c => Some (p, c) | _ => None end) tr.

(** The delays slept, in order. *)
Definition sleeps (tr : list event) : list float :=
  omap (λ e, match e with Sleep d => Some d | _ => None end) tr.

(** Events that neither start a subject, pause, nor end the run. *)
Definition inner (e : event) : bool :=
  match e with
  | Print (Progress _ _ _ _) | Print (DoneLine _) | Sleep _ => false
  | _ => true
  end.


(** A generate request that carries the quality [q]. *)
Definition carries_quality (q : Py.str) (r : request) : Prop :=
  ∃ g, r = Generate g ∧ gen_quality g = Some q.

(** An edit request that carries the reference bytes. *)
Definition edit_with (style_bytes : list byte) (r : request) : Prop :=
  ∃ e, r = Edit e ∧ edit_image e = style_bytes.

(** The first generate request of a subject, as [request_image] builds it. *)
Definition primary (args : Args.t) (prompt : Py.str) : generate_request :=
  {| gen_model := model;
     gen_prompt := prompt;
     gen_size := size_str args;
     gen_quality := Some (quality_name (Args.quality args));
     gen_output_format := output_format args |}.

(** The same generate request without its quality. *)
Definition without_quality (g : generate_request) : generate_request :=
  {| gen_model := gen_model g;
     gen_prompt := gen_prompt g;
     gen_size := gen_size g;
     gen_quality := None;
     gen_output_format := gen_output_format g |}.

(** Requests of a text-only run: generate requests that carry the quality
    [q], each possibly followed by its fallback without quality. *)
Inductive text_only (q : Py.str) : list request → Prop :=
  | text_only_nil : text_only q []
  | text_only_plain g rs :
      gen_quality g = Some q → text_only q rs →
      text_only q (Generate g :: rs)
  | text_only_fallback g rs :
      gen_quality g = Some q → text_only q rs →
      text_only q (Generate g :: Generate (without_quality g) :: rs).

(** A computation extends the trace by events satisfying [Q] and, when it
    returns, returns a value satisfying [R]. *)
Definition spec {A} (Q : list event → Prop) (R : A → Prop) (m : M A) : Prop :=
  ∀ w, ∃ evs,
    trace (m w).2 = trace w ++ evs ∧ Q evs ∧ ∀ x, (m w).1 = inr x → R x.

(** A computation that raises nothing but [Exception]s. *)
Definition no_exit {A} (m : M A) : Prop :=
  ∀ w msg, (m w).1 ≠ inl (SystemExit msg).

(* ===================================================================== *)
(** * Further readings of a trace, further environments *)
(* ===================================================================== *)

(** The numbering of the progress lines: [(i, total)] of [[i/total]]. *)
Definition progress_marks (tr : list event) : list (nat * nat) :=
  omap (λ e, match e with
             | Print (Progress i total _ _) => Some (i, total)
             | _ => None
             end) tr.

(** The prompt a request carries. *)
Definition request_prompt (r : request) : Py.str :=
  match r with
  | Edit e => edit_prompt e
  | Generate g => gen_prompt g
  end.

(** The paths opened for writing or written, in order. *)
Definition touched (tr : list event) : list path :=
  omap (λ e, match e with
             | OpenWb p | Write p _ => Some p
             | _ => None
             end) tr.

(** What one subject adds to the trace: its progress line, then its
    requests, opens, writes and error lines, all of them for this subject
    and none of them a sleep, then the sleep on the configured delay. *)
Definition subject_chunk (args : Args.t) (person_name : Py.str)
    (chunk : list event) : Prop :=
  ∃ i total evs,
    chunk = Print (Progress i total person_name (out_path_of args person_name))
            :: evs ++ [Sleep (Args.sleep args)]
    ∧ forallb inner evs = true
    ∧ Forall (λ r, request_prompt r = make_prompt person_name) (requests evs)
    ∧ Forall (λ p, p = out_path_of args person_name) (touched evs)
    ∧ Forall (λ n, n = person_name) (failed evs).

(** A string without whitespace at either end. *)
Definition trimmed (s : Py.str) : Prop :=
  (∀ c, head s = Some c → Py.isspace c = false)
  ∧ (∀ c, last s = Some c → Py.isspace c = false).

(** The edit request of a subject, as [request_image] builds it. *)
Definition edit_for (E : env) (args : Args.t) (style_path : Py.str)
    (style_bytes : list byte) (prompt : Py.str) : edit_request :=
  {| edit_model := model;
     edit_image := style_bytes;
     edit_image_name := path_name E style_path;
     edit_prompt := prompt;
     edit_size := size_str args;
     edit_output_format := output_format args |}.

(** The world a run starts in. *)
Definition start (fs : gmap path (list byte)) : world :=
  {| files := fs; trace := [] |}.

(** The outside of [env0] with another table. *)
Definition with_table (records : list (list Py.str)) : env :=
  {| mkdir := mkdir env0;
     new_client := new_client env0;
     csv_records := λ _, inr records;
     read_binary := read_binary env0;
     path_name := path_name env0;
     images_edit := images_edit env0;
     images_generate := images_generate env0;
     open_wb := open_wb env0;
     write_close := write_close env0;
     time_sleep := time_sleep env0 |}.

(** The outside of [env0], but the output directory cannot be made. *)
Definition env_no_dir : env :=
  {| mkdir := λ _, Some (Exc OSError (Py.lit "Permission denied"));
     new_client := new_client env0;
     csv_records := csv_records env0;
     read_binary := read_binary env0;
     path_name := path_name env0;
     images_edit := images_edit env0;
     images_generate := images_generate env0;
     open_wb := open_wb env0;
     write_close := write_close env0;
     time_sleep := time_sleep env0 |}.

(** The outside of [env0], but [time.sleep] rejects the delay (as it does
    a negative one). *)
Definition env_bad_sleep : env :=
  {| mkdir := mkdir env0;
     new_client := new_client env0;
     csv_records := csv_records env0;
     read_binary := read_binary env0;
     path_name := path_name env0;
     images_edit := images_edit env0;
     images_generate := images_generate env0;
     open_wb := open_wb env0;
     write_close := write_close env0;
     time_sleep := λ _, Some (Exc ValueError (Py.lit "sleep length must be non-negative")) |}.

(** [time.sleep] as far as the sign of the delay goes: a negative delay
    raises [ValueError]. *)
Definition py_time_sleep (seconds : float) : option exception :=
  if PrimFloat.ltb seconds 0
  then Some (Exc ValueError (Py.lit "sleep length must be non-negative"))
  else None.

(** A provider that is down, and the real check of the delay. *)
Definition env_down_checked_sleep : env :=
  {| mkdir := mkdir env0;
     new_client := new_client env0;
     csv_records := csv_records env0;
     read_binary := read_binary env0;
     path_name := path_name env0;
     images_edit := λ _ _, inl unavailable;
     images_generate := λ _ _, inl unavailable;
     open_wb := open_wb env0;
     write_close := write_close env0;
     time_sleep := py_time_sleep |}.

(** The command line of [args0] with [--sleep -1]. *)
Definition args_negative_sleep : Args.t :=
  {| Args.csv := Py.lit "actors.csv";
     Args.style := None;
     Args.out := Py.lit "out";
     Args.size := S1024;
     Args.sleep := (-1)%float;
     Args.format := Png;
     Args.quality := High |}.

(** A client that knows [quality] but not [output_format]: it raises a
    [TypeError] with or without [quality]. *)
Definition no_output_format : exception :=
  Exc TypeError
    (Py.lit "generate() got an unexpected keyword argument 'output_format'").

Definition env_rejects_format : env :=
  calm table0 (λ _ _, inr (reply "SGk=")) (λ _ _, inl no_output_format).

(** A provider that rejects [quality] with an error of its own class, and
    serves the same request without [quality]. *)
Definition quality_refused : exception :=
  Exc APIError (Py.lit "Unknown parameter: 'quality'").

Definition env_quality_refused : env :=
  calm table0 (λ _ _, inr (reply "SGk="))
    (λ _ g, match gen_quality g with
            | Some _ => inl quality_refused
            | None => inr (reply "SGk=")
            end).

(* ===================================================================== *)
(** * Laws of the effects *)
(* ===================================================================== *)

Lemma run_bind {A B} (m : M A) (f : A → M B) w :
  (x <- m;; f x) w =
  match m w with
  | (inl r, w') => (inl r, w')
  | (inr x, w') => f x w'
  end.
Proof. reflexivity. Qed.

Section Spec.

Context (Q : list event → Prop).
Hypothesis Q_nil : Q [].
Hypothesis Q_app : ∀ a b, Q a → Q b → Q (a ++ b).

Lemma spec_weaken {A} (R R' : A → Prop) (m : M A) :
  (∀ x, R x → R' x) → spec Q R m → spec Q R' m.
Proof using Type.
  intros HR Hm w. destruct (Hm w) as (evs & Ht & HQ & Hx).
  exists evs. eauto.
Qed.

Lemma spec_ret {A} (R : A → Prop) (x : A) : R x → spec Q R (ret x).
Proof using Q_nil.
  intros HR w. exists []. cbn. rewrite app_nil_r.
  repeat split; auto. intros y [= <-]. exact HR.
Qed.

Lemma spec_lift {A} (R : A → Prop) (r : result A) :
  (∀ x, r = inr x → R x) → spec Q R (lift r).
Proof using Q_nil.
  intros HR w. exists []. cbn. rewrite app_nil_r. auto.
Qed.

Lemma spec_raise {A} (R : A → Prop) e : spec Q R (raise e).
Proof using Q_nil. apply spec_lift. discriminate. Qed.

Lemma spec_of_sum {A} (R : A → Prop) (s : exception + A) :
  (∀ x, s = inr x → R x) → spec Q R (of_sum s).
Proof using Q_nil.
  destruct s as [e|x]; intros HR; [apply spec_raise|apply spec_ret; auto].
Qed.

Lemma spec_raise_if (R : unit → Prop) o : R tt → spec Q R (raise_if o).
Proof using Q_nil.
  destruct o; intros HR; [apply spec_raise|apply spec_ret; auto].
Qed.

Lemma spec_history : spec Q (λ _, True) history.
Proof using Q_nil.
  intros w. exists []. cbn. rewrite app_nil_r. auto.
Qed.

Lemma spec_set_file p c : spec Q (λ _, True) (set_file p c).
Proof using Q_nil.
  intros w. exists []. cbn. rewrite app_nil_r. auto.
Qed.

Lemma spec_emit e : Q [e] → spec Q (λ _, True) (emit e).
Proof using Type. intros He w. exists [e]. cbn. auto. Qed.

Lemma spec_bind {A B} (R : A → Prop) (R' : B → Prop) (m : M A) (f : A → M B) :
  spec Q R m → (∀ x, R x → spec Q R' (f x)) → spec Q R' (x <- m;; f x).
Proof using Q_app.
  intros Hm Hf w. rewrite run_bind.
  destruct (Hm w) as (evs & Ht & HQ & Hx).
  destruct (m w) as [[r|x] w1]; cbn in *.
  - exists evs. repeat split; auto; discriminate.
  - destruct (Hf x (Hx x eq_refl) w1) as (evs' & Ht' & HQ' & Hx').
    exists (evs ++ evs'). rewrite Ht', Ht, app_assoc. auto.
Qed.

Lemma spec_seq {A B} (R' : B → Prop) (m : M A) (f : A → M B) :
  spec Q (λ _, True) m → (∀ x, spec Q R' (f x)) → spec Q R' (x <- m;; f x).
Proof using Q_app. intros Hm Hf. eapply spec_bind; eauto. Qed.

Lemma spec_try_except {A} (R : A → Prop) c (body : M A) handler :
  spec Q R body → (∀ e, spec Q R (handler e)) →
  spec Q R (try_except c body handler).
Proof using Q_app.
  intros Hb Hh w. unfold try_except.
  destruct (Hb w) as (evs & Ht & HQ & Hx).
  destruct (body w) as [[[e|msg]|x] w1]; cbn in *.
  - destruct (c e).
    + destruct (Hh e w1) as (evs' & Ht' & HQ' & Hx').
      exists (evs ++ evs'). rewrite Ht', Ht, app_assoc. auto.
    + exists evs. repeat split; auto; discriminate.
  - exists evs. repeat split; auto; discriminate.
  - exists evs. auto.
Qed.

Lemma spec_try_finally {A} (R : A → Prop) (body : M A) final :
  spec Q R body → spec Q (λ _, True) final →
  spec Q R (try_finally body final).
Proof using Q_app.
  intros Hb Hf w. unfold try_finally.
  destruct (Hb w) as (evs & Ht & HQ & Hx).
  destruct (body w) as [r w1]; cbn in *.
  destruct (Hf w1) as (evs' & Ht' & HQ' & _).
  destruct (final w1) as [[x|[]] w2]; cbn in *;
    exists (evs ++ evs'); rewrite Ht', Ht, app_assoc;
    repeat split; auto; discriminate.
Qed.

Lemma spec_for_enumerate {A} (body : nat → A → M unit) i l :
  (∀ i x, spec Q (λ _, True) (body i x)) →
  spec Q (λ _, True) (for_enumerate body i l).
Proof using Q_nil Q_app.
  intros Hb. revert i. induction l as [|x l IH]; intros i; cbn.
  - apply spec_ret; auto.
  - apply spec_seq; auto.
Qed.

End Spec.

(* ===================================================================== *)
(** * What each part of [main] adds to the trace *)
(* ===================================================================== *)

Lemma requests_app a b : requests (a ++ b) = requests a ++ requests b.
Proof. apply omap_app. Qed.

Lemma attempted_app a b : attempted (a ++ b) = attempted a ++ attempted b.
Proof. apply omap_app. Qed.

Lemma sleeps_app a b : sleeps (a ++ b) = sleeps a ++ sleeps b.
Proof. apply omap_app. Qed.

Lemma text_only_app q a b : text_only q a → text_only q b → text_only q (a ++ b).
Proof.
  induction 1 as [|g rs Hq _ IH|g rs Hq _ IH]; intros Hb; cbn.
  - exact Hb.
  - apply text_only_plain; auto.
  - apply text_only_fallback; auto.
Qed.

(** Closes [∃ evs, trace … = trace w ++ evs ∧ Q evs ∧ …] once the run has
    been computed. *)
Ltac extension :=
  eexists; split;
    [rewrite <- ?app_assoc; reflexivity | split; auto].

Section RunnerSpec.

Context (E : env) (args : Args.t) (style_bytes : option (list byte)).
Context (Q : list event → Prop).
Hypothesis Q_nil : Q [].
Hypothesis Q_app : ∀ a b, Q a → Q b → Q (a ++ b).

Hypothesis Q_edit : ∀ b bs r,
  style_bytes = Some (b :: bs) → edit_image r = b :: bs → Q [Request (Edit r)].
Hypothesis Q_generate : ∀ prompt,
  Py.truthy (default [] style_bytes) = false →
  Q [Request (Generate (primary args prompt))] ∧
  Q [Request (Generate (primary args prompt));
     Request (Generate (without_quality (primary args prompt)))].
Hypothesis Q_open : ∀ p, Q [OpenWb p].
Hypothesis Q_write : ∀ p c, Q [Write p c].
Hypothesis Q_error : ∀ n e, Q [Print (ErrorLine n e)].

Lemma spec_request_image prompt :
  spec Q (λ _, True) (request_image E args style_bytes prompt).
Proof.
  unfold request_image. destruct style_bytes as [[|b bs]|] eqn:Hs.
  - destruct (Q_generate prompt eq_refl) as [H1 H2].
    intros w. unfold try_except, call_generate. cbn.
    destruct (images_generate E (trace w) _) as [e|resp]; cbn.
    + destruct (is_TypeError e); cbn.
      * destruct (images_generate E _ _); cbn; extension.
      * extension.
    + extension.
  - apply spec_seq; auto.
    + apply spec_lift; auto.
    + intros name. unfold call_edit.
      apply spec_seq; auto using spec_history. intros h.
      apply spec_seq; auto using spec_of_sum.
      apply spec_emit. eapply Q_edit; eauto.
  - destruct (Q_generate prompt eq_refl) as [H1 H2].
    intros w. unfold try_except, call_generate. cbn.
    destruct (images_generate E (trace w) _) as [e|resp]; cbn.
    + destruct (is_TypeError e); cbn.
      * destruct (images_generate E _ _); cbn; extension.
      * extension.
    + extension.
Qed.

Lemma spec_open_for_write p : spec Q (λ _, True) (open_for_write E p).
Proof.
  unfold open_for_write.
  apply spec_seq; auto using spec_history. intros h.
  apply spec_seq; auto using spec_emit. intros _.
  destruct (open_wb E h p); auto using spec_raise, spec_set_file.
Qed.

Lemma spec_write_and_close p c : spec Q (λ _, True) (write_and_close E p c).
Proof.
  unfold write_and_close.
  apply spec_seq; auto using spec_history. intros h.
  apply spec_seq; auto using spec_emit. intros _.
  destruct (write_close E h p c) as [[k e]|]; auto using spec_set_file.
  apply spec_seq; auto using spec_set_file, spec_raise.
Qed.

Lemma spec_attempt prompt p :
  spec Q (λ _, True) (attempt E args style_bytes prompt p).
Proof.
  unfold attempt.
  apply spec_seq; auto using spec_request_image. intros resp.
  apply spec_seq; auto using spec_lift. intros b64.
  apply spec_seq; auto using spec_open_for_write. intros _.
  apply spec_seq; auto using spec_lift, spec_write_and_close.
Qed.

(** The [try] with its [except Exception] handler. *)
Lemma spec_caught person_name prompt p :
  spec Q (λ _, True)
    (try_except (λ _, true) (attempt E args style_bytes prompt p)
       (λ e, print (ErrorLine person_name e))).
Proof.
  apply spec_try_except; auto using spec_attempt.
  intros e. apply spec_emit, Q_error.
Qed.

Hypothesis Q_progress : ∀ i n name p, Q [Print (Progress i n name p)].
Hypothesis Q_sleep : Q [Sleep (Args.sleep args)].

Lemma spec_guarded person_name :
  spec Q (λ _, True) (guarded E args style_bytes person_name).
Proof.
  unfold guarded. apply spec_try_finally; auto using spec_caught.
  unfold sleep. apply spec_seq; auto using spec_emit, spec_raise_if.
Qed.

Lemma spec_iteration total i row :
  spec Q (λ _, True) (iteration E args style_bytes total i row).
Proof.
  unfold iteration.
  apply spec_seq; auto using spec_lift. intros name.
  apply spec_seq; auto using spec_guarded.
  apply spec_emit, Q_progress.
Qed.

Lemma spec_batch rows : spec Q (λ _, True) (batch E args style_bytes rows).
Proof.
  unfold batch. apply spec_for_enumerate; auto using spec_iteration.
Qed.

End RunnerSpec.

(** Nothing before the loop issues a request; the loop is entered with the
    reference bytes [load_style] returned. *)
Lemma spec_main E args (Q : list event → Prop) (R : option (list byte) → Prop) :
  Q [] → (∀ a b, Q a → Q b → Q (a ++ b)) →
  Q [Print ModeStyleRef] → (∀ q, Q [Print (ModeTextOnly q)]) →
  (∀ d, Q [Print (DoneLine d)]) →
  (∀ x w, (load_style E args w).1 = inr x → R x) →
  (∀ sb rows, R sb → spec Q (λ _, True) (batch E args sb rows)) →
  spec Q (λ _, True) (main E args).
Proof.
  intros Q_nil Q_app Q_ref Q_text Q_done HR Hbatch. unfold main.
  apply spec_seq; auto using spec_raise_if. intros _.
  apply spec_seq; auto using spec_raise_if. intros _.
  apply spec_seq; auto using spec_of_sum. intros records.
  apply spec_seq; auto using spec_lift. intros rows.
  apply spec_bind with (R := R); auto.
  - intros w. unfold load_style.
    destruct (Args.style args) as [[|c p]|] eqn:Hs.
    + specialize (HR None w). unfold load_style in HR. rewrite Hs in HR.
      cbn in *. eexists. split; [reflexivity|]. split; auto.
      intros x [= <-]. auto.
    + specialize (λ x, HR x w). unfold load_style in HR. rewrite Hs in HR.
      cbn in *. destruct (read_binary E (c :: p)) as [e|bytes]; cbn in *.
      * exists []. rewrite app_nil_r. repeat split; auto; discriminate.
      * eexists. split; [reflexivity|]. split; auto.
    + specialize (HR None w). unfold load_style in HR. rewrite Hs in HR.
      cbn in *. eexists. split; [reflexivity|]. split; auto.
      intros x [= <-]. auto.
  - intros sb Hsb. apply spec_seq; auto. intros _. apply spec_emit; auto.
Qed.

(* ===================================================================== *)
(** * The run of one subject, step by step *)
(* ===================================================================== *)

Section Steps.

Context (E : env) (args : Args.t).

(** Text-only mode: one request, and one more exactly when the first
    raised a [TypeError]. *)
Lemma request_image_generate style_bytes prompt w :
  Py.truthy (default [] style_bytes) = false →
  request_image E args style_bytes prompt w =
  let g := primary args prompt in
  let w1 := log (Request (Generate g)) w in
  match images_generate E (trace w) g with
  | inr resp => (inr resp, w1)
  | inl e =>
      if is_TypeError e then
        (match images_generate E (trace w1) (without_quality g) with
         | inl e2 => inl (Exn e2)
         | inr resp => inr resp
         end, log (Request (Generate (without_quality g))) w1)
      else (inl (Exn e), w1)
  end.
Proof.
  intros Hs. unfold request_image, try_except, call_generate.
  destruct style_bytes as [[|b bs]|]; try discriminate Hs; cbn;
    (destruct (images_generate E (trace w) _) as [e|resp]; cbn;
     [destruct (is_TypeError e); cbn;
      [destruct (images_generate E _ _); reflexivity|reflexivity]
     |reflexivity]).
Qed.

(** Style mode: one edit request. *)
Lemma request_image_edit b bs prompt name w :
  style_name E args = inr name →
  request_image E args (Some (b :: bs)) prompt w =
  let r := {| edit_model := model;
              edit_image := b :: bs;
              edit_image_name := name;
              edit_prompt := prompt;
              edit_size := size_str args;
              edit_output_format := output_format args |} in
  (match images_edit E (trace w) r with
   | inl e => inl (Exn e)
   | inr resp => inr resp
   end, log (Request (Edit r)) w).
Proof.
  intros Hn. unfold request_image, call_edit. cbn. rewrite Hn. cbn.
  destruct (images_edit E (trace w) _); reflexivity.
Qed.

Lemma request_image_files style_bytes prompt w :
  files (request_image E args style_bytes prompt w).2 = files w.
Proof.
  destruct style_bytes as [[|b bs]|] eqn:Hs.
  - rewrite request_image_generate by reflexivity. cbn.
    destruct (images_generate E (trace w) _) as [e|resp]; cbn; auto.
    destruct (is_TypeError e); cbn; auto.
  - destruct (style_name E args) as [x|name] eqn:Hn.
    + unfold request_image. cbn. rewrite Hn. reflexivity.
    + rewrite (request_image_edit _ _ _ name) by exact Hn. reflexivity.
  - rewrite request_image_generate by reflexivity. cbn.
    destruct (images_generate E (trace w) _) as [e|resp]; cbn; auto.
    destruct (is_TypeError e); cbn; auto.
Qed.

Lemma request_image_no_exit style_bytes prompt w msg :
  (request_image E args style_bytes prompt w).1 ≠ inl (SystemExit msg).
Proof.
  destruct style_bytes as [[|b bs]|] eqn:Hs.
  - rewrite request_image_generate by reflexivity. cbn.
    destruct (images_generate E (trace w) _) as [e|resp]; cbn; try discriminate.
    destruct (is_TypeError e); cbn; try discriminate.
    destruct (images_generate E _ _); discriminate.
  - destruct (style_name E args) as [x|name] eqn:Hn.
    + unfold request_image. cbn. rewrite Hn. cbn.
      unfold style_name in Hn. destruct (Args.style args); [discriminate|].
      injection Hn as <-. discriminate.
    + rewrite (request_image_edit _ _ _ name) by exact Hn. cbn.
      destruct (images_edit E _ _); discriminate.
  - rewrite request_image_generate by reflexivity. cbn.
    destruct (images_generate E (trace w) _) as [e|resp]; cbn; try discriminate.
    destruct (is_TypeError e); cbn; try discriminate.
    destruct (images_generate E _ _); discriminate.
Qed.

(** The body of the [try], stage by stage. *)
Lemma attempt_run style_bytes prompt p w :
  attempt E args style_bytes prompt p w =
  match request_image E args style_bytes prompt w with
  | (inl x, w1) => (inl x, w1)
  | (inr resp, w1) =>
      match first_b64 resp with
      | inl x => (inl x, w1)
      | inr b64 =>
          let w2 := log (OpenWb p) w1 in
          match open_wb E (trace w1) p with
          | Some e => (inl (Exn e), w2)
          | None =>
              match Base64.b64decode b64 with
              | inl x => (inl x, store p [] w2)
              | inr content =>
                  let w3 := log (Write p content) (store p [] w2) in
                  match write_close E (trace w2) p content with
                  | None => (inr tt, store p content w3)
                  | Some (k, e) => (inl (Exn e), store p (take k content) w3)
                  end
              end
          end
      end
  end.
Proof.
  unfold attempt. rewrite run_bind.
  destruct (request_image E args style_bytes prompt w) as [[x|resp] w1]; auto.
  rewrite run_bind. unfold lift at 1.
  destruct (first_b64 resp) as [x|b64]; auto.
  unfold open_for_write, write_and_close. cbn.
  destruct (open_wb E (trace w1) p) as [e|]; cbn; auto.
  destruct (Base64.b64decode b64) as [x|content]; cbn; auto.
  destruct (write_close E _ p content) as [[k e]|]; cbn; auto.
Qed.

Lemma first_b64_no_exit resp msg : first_b64 resp ≠ inl (SystemExit msg).
Proof. unfold first_b64. destruct (data resp) as [[|img l]|]; discriminate. Qed.

Lemma a2b_no_exit s q l pd out msg :
  Base64.a2b s q l pd out ≠ inl (SystemExit msg).
Proof.
  revert q l pd out. induction s as [|c s IH]; intros q l pd out; cbn.
  - repeat case_match; discriminate.
  - repeat case_match; try discriminate; apply IH.
Qed.

Lemma b64decode_no_exit b64 msg : Base64.b64decode b64 ≠ inl (SystemExit msg).
Proof.
  unfold Base64.b64decode. destruct b64 as [s|]; [|discriminate].
  case_match; [apply a2b_no_exit|discriminate].
Qed.

(** Whatever the body of the [try] raises is an [Exception]. *)
Lemma attempt_no_exit style_bytes prompt p : no_exit (attempt E args style_bytes prompt p).
Proof.
  intros w msg. rewrite attempt_run.
  pose proof (request_image_no_exit style_bytes prompt w msg) as Hr.
  destruct (request_image E args style_bytes prompt w) as [[x|resp] w1];
    [intros [= ->]; apply Hr; reflexivity|].
  pose proof (first_b64_no_exit resp msg) as Hf.
  destruct (first_b64 resp) as [x|b64];
    [intros [= ->]; apply Hf; reflexivity|]. cbn.
  destruct (open_wb E (trace w1) p) as [e|]; [discriminate|].
  pose proof (b64decode_no_exit b64 msg) as Hd.
  destruct (Base64.b64decode b64) as [x|content];
    [intros [= ->]; apply Hd; reflexivity|].
  destruct (write_close E _ p content) as [[k e]|]; discriminate.
Qed.

(** The subject with its handlers: an [Exception] of the body becomes an
    error line, then the sleep runs, and only the sleep can make the pass
    of the loop raise. *)
Lemma guarded_run style_bytes person_name w :
  guarded E args style_bytes person_name w =
  let '(r, w1) := attempt E args style_bytes (make_prompt person_name)
                    (out_path_of args person_name) w in
  let w2 := match r with
            | inl (Exn e) => log (Print (ErrorLine person_name e)) w1
            | _ => w1
            end in
  (match time_sleep E (Args.sleep args) with
   | Some e => inl (Exn e)
   | None => inr tt
   end, log (Sleep (Args.sleep args)) w2).
Proof.
  unfold guarded, try_finally, try_except, sleep.
  pose proof (attempt_no_exit style_bytes (make_prompt person_name)
                (out_path_of args person_name) w) as Hx.
  destruct (attempt E args style_bytes _ _ w) as [[[e|msg]|[]] w1]; cbn.
  - destruct (time_sleep E (Args.sleep args)); reflexivity.
  - destruct (Hx msg eq_refl).
  - destruct (time_sleep E (Args.sleep args)); reflexivity.
Qed.

End Steps.

(* ===================================================================== *)
(** * C1: the shape of the requests, by mode *)
(* ===================================================================== *)

(** C1, as stated, fails in text-only mode: when the client raises
    [TypeError] on the first call, the fallback request that follows
    carries no quality.  Here no style is configured and not every request
    of the run carries the configured quality. *)
Lemma text_only_fallback_drops_quality :
  Args.style args0 = None ∧
  ¬ Forall (carries_quality (quality_name (Args.quality args0)))
      (requests (trace (run env_old_client args0 ∅).2)).
Proof.
  split; [reflexivity|]. intros H.
  apply Forall_lookup_1 with (i := 1%nat)
    (x := Generate (without_quality (primary args0 (make_prompt (Py.lit "Jane Doe")))))
    in H; [|vm_compute; reflexivity].
  destruct H as (g & [= <-] & Hq). discriminate Hq.
Qed.

(** The truth test of line 83 is on the bytes: with a style file of no
    bytes the run announces the style mode and then issues generate
    requests that carry the quality. *)
Lemma empty_style_file_generates :
  let tr := trace (run env_empty_style args_style ∅).2 in
  head tr = Some (Print ModeStyleRef)
  ∧ Forall (carries_quality (Py.lit "high")) (requests tr)
  ∧ length (requests tr) = 2.
Proof.
  vm_compute. split; [reflexivity|]. split; [|reflexivity].
  repeat constructor; eexists; split; reflexivity.
Qed.

(** C1 (amended).  When a style path is given and the bytes read from it
    are not empty, every request of the run is an edit request carrying
    those bytes (an edit request has no quality).  When no style path is
    given (or an empty one), every request is a generate request: one
    carrying the configured quality, possibly followed by the same
    request without quality (the fallback). *)
Theorem request_shape_by_mode E args fs :
  (∀ p style_bytes,
     Args.style args = Some p → p ≠ [] →
     read_binary E p = inr style_bytes → style_bytes ≠ [] →
     Forall (edit_with style_bytes) (requests (trace (run E args fs).2)))
  ∧ (Py.truthy (default [] (Args.style args)) = false →
     text_only (quality_name (Args.quality args))
       (requests (trace (run E args fs).2))).
Proof.
  split.
  - intros p style_bytes Hs Hp Hread Hbytes.
    pose (Q := λ evs, Forall (edit_with style_bytes) (requests evs)).
    assert (Q_nil : Q []) by constructor.
    assert (Q_app : ∀ a b, Q a → Q b → Q (a ++ b)).
    { intros a b Ha Hb. unfold Q. rewrite requests_app. apply Forall_app; auto. }
    assert (Q_other : ∀ e, (∀ r, e ≠ Request r) → Q [e]).
    { intros [l|r|p'|p' c|d] He; [|destruct (He r eq_refl)|..];
        unfold Q; cbn; constructor. }
    destruct (spec_main E args Q (λ sb, sb = Some style_bytes) Q_nil Q_app)
      with (w := {| files := fs; trace := [] |}) as (evs & Ht & HQ & _).
    + apply Q_other. discriminate.
    + intros l. apply Q_other. discriminate.
    + intros l. apply Q_other. discriminate.
    + intros x w. unfold load_style. rewrite Hs.
      destruct p as [|c p]; [done|]. rewrite Hread. cbn. congruence.
    + intros sb rows ->. destruct style_bytes as [|b bs]; [done|].
      apply spec_batch; auto; try (intros; apply Q_other; discriminate).
      * intros b' bs' r [= <- <-] Hr. repeat constructor. exists r. auto.
      * intros prompt Hf. discriminate Hf.
    + unfold run. rewrite Ht. exact HQ.
  - intros Hs.
    pose (q := quality_name (Args.quality args)).
    pose (Q := λ evs, text_only q (requests evs)).
    assert (Q_nil : Q []) by constructor.
    assert (Q_app : ∀ a b, Q a → Q b → Q (a ++ b)).
    { intros a b Ha Hb. unfold Q. rewrite requests_app.
      apply text_only_app; auto. }
    assert (Q_other : ∀ e, (∀ r, e ≠ Request r) → Q [e]).
    { intros [l|r|p'|p' c|d] He; [|destruct (He r eq_refl)|..];
        unfold Q; cbn; constructor. }
    destruct (spec_main E args Q (λ sb, sb = None) Q_nil Q_app)
      with (w := {| files := fs; trace := [] |}) as (evs & Ht & HQ & _).
    + apply Q_other. discriminate.
    + intros l. apply Q_other. discriminate.
    + intros l. apply Q_other. discriminate.
    + intros x w. unfold load_style.
      destruct (Args.style args) as [[|c p]|]; try discriminate Hs;
        cbn; congruence.
    + intros sb rows ->.
      apply spec_batch; auto; try (intros; apply Q_other; discriminate).
      intros prompt _. split.
      * apply text_only_plain; [reflexivity|constructor].
      * apply text_only_fallback; [reflexivity|constructor].
    + unfold run. rewrite Ht. exact HQ.
Qed.

(** The amended C1 at work: a text-only run against the client that
    rejects [quality], and a style run. *)
Lemma request_shape_by_mode_witness :
  text_only (Py.lit "high") (requests (trace (run env_old_client args0 ∅).2))
  ∧ Forall (edit_with [x89; x50; x4e; x47]%byte)
      (requests (trace (run env0 args_style ∅).2)).
Proof.
  split.
  - apply (proj2 (request_shape_by_mode env_old_client args0 ∅)). reflexivity.
  - apply (proj1 (request_shape_by_mode env0 args_style ∅)) with (p := Py.lit "ref.png").
    + reflexivity.
    + discriminate.
    + reflexivity.
    + discriminate.
Defined.

(* ===================================================================== *)
(** * C3: what a failed subject leaves on disk *)
(* ===================================================================== *)

(** C3, as stated, fails: the output file is opened (created or emptied)
    before the payload is decoded.  With a response that has no payload
    the subject fails, and the portrait that was at its path is gone. *)
Lemma failed_decode_empties_file :
  let p := out_path_of args0 jane in
  let r := attempt env_no_payload args0 None (make_prompt jane) p world_old in
  r.1 = throw TypeError
          "argument should be a bytes-like object or ASCII string, not 'NoneType'"
  ∧ files world_old !! p = Some [x01; x02]%byte
  ∧ files r.2 !! p = Some []
  ∧ files r.2 !! p ≠ files world_old !! p.
Proof. vm_compute. repeat split; discriminate. Qed.

(** C3 (amended).  A failure of the request, of the payload extraction or
    of the open leaves every file as it was.  A failure of the decoding
    comes after the open: the output file exists and is empty.  A failure
    of the write leaves in it the bytes written so far.  Every failure of
    the attempt is one of these, and no other path is ever touched. *)
Theorem failure_and_files E args style_bytes prompt p w :
  let m := attempt E args style_bytes prompt p in
  let req := request_image E args style_bytes prompt in
  (∀ x w1, req w = (inl x, w1) → m w = (inl x, w1) ∧ files w1 = files w)
  ∧ (∀ resp w1 x, req w = (inr resp, w1) → first_b64 resp = inl x →
       m w = (inl x, w1) ∧ files w1 = files w)
  ∧ (∀ resp w1 b64 e, req w = (inr resp, w1) → first_b64 resp = inr b64 →
       open_wb E (trace w1) p = Some e →
       (m w).1 = inl (Exn e) ∧ files (m w).2 = files w)
  ∧ (∀ resp w1 b64 x, req w = (inr resp, w1) → first_b64 resp = inr b64 →
       open_wb E (trace w1) p = None → Base64.b64decode b64 = inl x →
       (m w).1 = inl x ∧ files (m w).2 = <[p := []]> (files w))
  ∧ (∀ resp w1 b64 content k e, req w = (inr resp, w1) →
       first_b64 resp = inr b64 → open_wb E (trace w1) p = None →
       Base64.b64decode b64 = inr content →
       write_close E (trace w1 ++ [OpenWb p]) p content = Some (k, e) →
       (m w).1 = inl (Exn e) ∧ files (m w).2 = <[p := take k content]> (files w))
  ∧ (∀ x w', m w = (inl x, w') →
       files w' = files w ∨ ∃ content, files w' = <[p := content]> (files w)).
Proof.
  cbn zeta.
  pose proof (request_image_files E args style_bytes prompt w) as Hf.
  rewrite attempt_run.
  destruct (request_image E args style_bytes prompt w) as [[x0|resp0] w0];
    cbn in Hf.
  { split; [intros x w1 [= <- <-]; auto|].
    do 4 (split; [intros; discriminate|]).
    intros x w' [= <- <-]. auto. }
  split; [intros; discriminate|].
  split.
  { intros resp w1 x [= <- <-] ->. auto. }
  split.
  { intros resp w1 b64 e [= <- <-] -> ->. cbn. auto. }
  split.
  { intros resp w1 b64 x [= <- <-] -> -> ->. cbn. rewrite Hf. auto. }
  split.
  { intros resp w1 b64 content k e [= <- <-] -> -> ->. cbn. intros ->. cbn.
    rewrite insert_insert_eq, Hf. auto. }
  intros x w'.
  destruct (first_b64 resp0) as [y|b64]; [intros [= <- <-]; auto|]. cbn.
  destruct (open_wb E (trace w0) p) as [e|]; [intros [= <- <-]; auto|].
  destruct (Base64.b64decode b64) as [y|content].
  { intros [= <- <-]. right. exists []. cbn. rewrite Hf. auto. }
  destruct (write_close E _ p content) as [[k e]|]; [|discriminate].
  intros [= <- <-]. right. exists (take k content). cbn.
  rewrite insert_insert_eq, Hf. auto.
Qed.

(** The amended C3 on the response without payload: the file is left
    empty; and on the provider that is down: nothing changes. *)
Lemma failure_and_files_witness :
  let p := out_path_of args0 jane in
  files (attempt env_no_payload args0 None (make_prompt jane) p world_old).2
    = <[p := []]> (files world_old)
  ∧ files (attempt env_down args0 None (make_prompt jane) p world_old).2
    = files world_old.
Proof.
  cbn zeta. split.
  - eapply (proj1 (proj2 (proj2 (proj2
      (failure_and_files env_no_payload args0 None (make_prompt jane)
         (out_path_of args0 jane) world_old))))).
    + reflexivity.
    + reflexivity.
    + reflexivity.
    + reflexivity.
  - pose proof (proj1 (failure_and_files env_down args0 None (make_prompt jane)
         (out_path_of args0 jane) world_old)) as H.
    cbn zeta in H.
    destruct (H (Exn unavailable)
                (log (Request (Generate (primary args0 (make_prompt jane)))) world_old)
                eq_refl) as [-> _].
    reflexivity.
Defined.

(* ===================================================================== *)
(** * C5: the fallback without quality *)
(* ===================================================================== *)

(** C5, amended.  In text-only mode the first request carries the quality.  If the
    call returns, or raises anything but a [TypeError], it is the only
    request and its outcome is the outcome.  If it raises a [TypeError],
    exactly one more request follows, equal to the first but for the
    missing quality, and its outcome is the outcome.  When that one fails
    too, the subject ends like any failed subject: the error line with
    its name, then the sleep. *)
Theorem quality_fallback E args style_bytes person_name w :
  Py.truthy (default [] style_bytes) = false →
  let prompt := make_prompt person_name in
  let req := request_image E args style_bytes prompt in
  let g := primary args prompt in
  let w1 := log (Request (Generate g)) w in
  let w2 := log (Request (Generate (without_quality g))) w1 in
  (gen_quality g = Some (quality_name (Args.quality args))
   ∧ without_quality g =
       {| gen_model := model; gen_prompt := prompt; gen_size := size_str args;
          gen_quality := None; gen_output_format := output_format args |})
  ∧ (∀ resp, images_generate E (trace w) g = inr resp →
       req w = (inr resp, w1))
  ∧ (∀ e, images_generate E (trace w) g = inl e → is_TypeError e = false →
       req w = (inl (Exn e), w1))
  ∧ (∀ e resp, images_generate E (trace w) g = inl e → is_TypeError e = true →
       images_generate E (trace w1) (without_quality g) = inr resp →
       req w = (inr resp, w2))
  ∧ (∀ e e2, images_generate E (trace w) g = inl e → is_TypeError e = true →
       images_generate E (trace w1) (without_quality g) = inl e2 →
       req w = (inl (Exn e2), w2)
       ∧ guarded E args style_bytes person_name w =
           (match time_sleep E (Args.sleep args) with
            | Some e => inl (Exn e)
            | None => inr tt
            end,
            log (Sleep (Args.sleep args))
              (log (Print (ErrorLine person_name e2)) w2))).
Proof.
  intros Hs. cbn zeta.
  pose proof (request_image_generate E args style_bytes
                (make_prompt person_name) w Hs) as Hreq. cbn zeta in Hreq.
  split; [split; reflexivity|].
  split; [intros resp Hg; rewrite Hreq, Hg; reflexivity|].
  split; [intros e Hg He; rewrite Hreq, Hg, He; reflexivity|].
  split; [intros e resp Hg He Hg2; rewrite Hreq, Hg, He, Hg2; reflexivity|].
  intros e e2 Hg He Hg2.
  assert (Hr : request_image E args style_bytes (make_prompt person_name) w =
               (inl (Exn e2),
                log (Request (Generate (without_quality
                       (primary args (make_prompt person_name)))))
                  (log (Request (Generate (primary args (make_prompt person_name)))) w)))
    by (rewrite Hreq, Hg, He, Hg2; reflexivity).
  split; [exact Hr|].
  rewrite guarded_run, attempt_run, Hr. reflexivity.
Qed.

(** C5 on the client that rejects [quality] and then fails: two requests,
    one error line, one sleep, and the pass of the loop returns. *)
Lemma quality_fallback_witness :
  guarded env_old_client_down args0 None jane world0 =
    (inr tt,
     log (Sleep 0.5%float)
       (log (Print (ErrorLine jane unavailable))
          (log (Request (Generate (without_quality (primary args0 (make_prompt jane)))))
             (log (Request (Generate (primary args0 (make_prompt jane)))) world0)))).
Proof.
  pose proof (quality_fallback env_old_client_down args0 None jane world0 eq_refl)
    as (_ & _ & _ & _ & H).
  exact (proj2 (H (Exc TypeError (Py.lit "unexpected keyword argument"))
                  unavailable eq_refl eq_refl eq_refl)).
Defined.

(** C5 as it was written, refuted in both directions: the fallback
    follows the class of the exception, not what was rejected.  A client
    that rejects [output_format] with a [TypeError], with or without
    [quality], gets the retry without quality all the same; and a provider
    that rejects [quality] with an error of another class, and would serve
    the request without it, gets no retry: the subject fails. *)
Lemma fallback_follows_exception_class :
  let g := primary args0 (make_prompt jane) in
  (images_generate env_rejects_format [] g = inl no_output_format
   ∧ images_generate env_rejects_format [Request (Generate g)] (without_quality g)
     = inl no_output_format
   ∧ requests (trace (guarded env_rejects_format args0 None jane world0).2)
     = [Generate g; Generate (without_quality g)])
  ∧ (images_generate env_quality_refused [] g = inl quality_refused
     ∧ images_generate env_quality_refused [] (without_quality g)
       = inr (reply "SGk=")
     ∧ requests (trace (guarded env_quality_refused args0 None jane world0).2)
       = [Generate g]
     ∧ failed (trace (guarded env_quality_refused args0 None jane world0).2)
       = [jane]).
Proof. vm_compute. repeat split; reflexivity. Qed.

(* ===================================================================== *)
(** * Decoding inverts encoding *)
(* ===================================================================== *)

Lemma N_range_check (P : N → bool) (n : nat) :
  forallb P (N.of_nat <$> seq 0 n) = true →
  ∀ v, (v < N.of_nat n)%N → P v = true.
Proof.
  intros Hall v Hv. rewrite forallb_forall in Hall. apply Hall.
  apply list_elem_of_In, list_elem_of_fmap. exists (N.to_nat v).
  split; [symmetry; apply N2Nat.id|].
  apply elem_of_seq. lia.
Qed.

Lemma char_index v :
  (v < 64)%N →
  Base64.index (B64Ref.char v) = Some v
  ∧ (B64Ref.char v =? 61)%N = false
  ∧ (B64Ref.char v <? 128)%N = true.
Proof.
  intros Hv.
  pose proof (N_range_check
    (λ v, bool_decide (Base64.index (B64Ref.char v) = Some v)
          && negb (B64Ref.char v =? 61)%N && (B64Ref.char v <? 128)%N) 64) as H.
  specialize (H ltac:(vm_compute; reflexivity) v Hv).
  apply andb_prop in H as [H H3]. apply andb_prop in H as [H1 H2].
  apply bool_decide_eq_true in H1. apply negb_true_iff in H2. auto.
Qed.

Lemma regroups_all x y : (x < 256)%N → (y < 256)%N → B64Ref.regroups x y = true.
Proof.
  intros Hx Hy.
  pose proof (N_range_check
    (λ x, forallb (B64Ref.regroups x) (N.of_nat <$> seq 0 256)) 256) as H.
  specialize (H ltac:(vm_compute; reflexivity) x Hx).
  exact (N_range_check _ 256 H y Hy).
Qed.

Lemma byte_below b : (Byte.to_N b < 256)%N.
Proof. pose proof (Byte.to_N_bounded b). lia. Qed.

Lemma to_byte_of b n : N.land n 255 = Byte.to_N b → Base64.to_byte n = b.
Proof. intros H. unfold Base64.to_byte. rewrite H, Byte.of_to_N. reflexivity. Qed.

Section Decode.

Import B64Ref.

Context (v : N) (Hv : (v < 64)%N).

Lemma a2b_first s l p out :
  Base64.a2b (char v :: s) 0 l p out = Base64.a2b s 1 v 0 out.
Proof.
  destruct (char_index v Hv) as (Hi & Hne & _).
  cbn [Base64.a2b]. rewrite Hne, Hi. reflexivity.
Qed.

Lemma a2b_second s l p out :
  Base64.a2b (char v :: s) 1 l p out =
  Base64.a2b s 2 (N.land v 15) 0
    (out ++ [Base64.to_byte (N.lor (N.shiftl l 2) (N.shiftr v 4))]).
Proof.
  destruct (char_index v Hv) as (Hi & Hne & _).
  cbn [Base64.a2b]. rewrite Hne, Hi. reflexivity.
Qed.

Lemma a2b_third s l p out :
  Base64.a2b (char v :: s) 2 l p out =
  Base64.a2b s 3 (N.land v 3) 0
    (out ++ [Base64.to_byte (N.lor (N.shiftl l 4) (N.shiftr v 2))]).
Proof.
  destruct (char_index v Hv) as (Hi & Hne & _).
  cbn [Base64.a2b]. rewrite Hne, Hi. reflexivity.
Qed.

Lemma a2b_fourth s l p out :
  Base64.a2b (char v :: s) 3 l p out =
  Base64.a2b s 0 0 0 (out ++ [Base64.to_byte (N.lor (N.shiftl l 6) v)]).
Proof.
  destruct (char_index v Hv) as (Hi & Hne & _).
  cbn [Base64.a2b]. rewrite Hne, Hi. reflexivity.
Qed.

End Decode.

Lemma regroups_facts x y :
  (x < 256)%N → (y < 256)%N →
  ((B64Ref.sextet0 x < 64)%N ∧ (B64Ref.sextet1 x y < 64)%N
   ∧ (B64Ref.sextet2 x y < 64)%N ∧ (B64Ref.sextet3 y < 64)%N)
  ∧ N.land (N.lor (N.shiftl (B64Ref.sextet0 x) 2)
              (N.shiftr (B64Ref.sextet1 x y) 4)) 255 = x
  ∧ N.land (B64Ref.sextet1 x y) 15 = N.shiftr y 4
  ∧ N.shiftr (B64Ref.sextet2 x y) 2 = N.land x 15
  ∧ N.land (B64Ref.sextet2 x y) 3 = N.shiftr y 6
  ∧ N.land (N.lor (N.shiftl (N.shiftr y 4) 4) (N.land y 15)) 255 = y
  ∧ N.land (N.lor (N.shiftl (N.shiftr y 6) 6) (B64Ref.sextet3 y)) 255 = y.
Proof.
  intros Hx Hy.
  pose proof (regroups_all _ _ Hx Hy) as H.
  unfold B64Ref.regroups in H.
  repeat (apply andb_prop in H as [H ?]).
  repeat match goal with
         | H : (_ <? _)%N = true |- _ => apply N.ltb_lt in H
         | H : (_ =? _)%N = true |- _ => apply N.eqb_eq in H
         end.
  auto 12.
Qed.

Lemma a2b_pad2 l out : Base64.a2b [61; 61]%N 2 l 0 out = inr out.
Proof. reflexivity. Qed.

Lemma a2b_pad1 l out : Base64.a2b [61]%N 3 l 0 out = inr out.
Proof. reflexivity. Qed.

(** Decoding what was encoded gives the bytes back. *)
Lemma a2b_b2a n : ∀ bs out,
  length bs ≤ n →
  Base64.a2b (B64Ref.b2a bs) 0 0 0 out = inr (out ++ bs).
Proof.
  induction n as [|n IH]; intros bs out Hlen.
  { destruct bs; [|cbn in Hlen; lia]. cbn. rewrite app_nil_r. reflexivity. }
  destruct bs as [|a [|b [|c rest]]].
  - cbn. rewrite app_nil_r. reflexivity.
  - destruct (regroups_facts (Byte.to_N a) 0 (byte_below a) eq_refl)
      as ((L0 & L1 & _ & _) & E0 & _).
    cbn [B64Ref.b2a].
    rewrite a2b_first, a2b_second, a2b_pad2 by assumption.
    rewrite (to_byte_of a) by exact E0. reflexivity.
  - destruct (regroups_facts (Byte.to_N a) (Byte.to_N b) (byte_below a) (byte_below b))
      as ((L0 & L1 & _ & _) & E0 & A1 & _ & _ & D1 & _).
    destruct (regroups_facts (Byte.to_N b) 0 (byte_below b) eq_refl)
      as ((_ & _ & L2 & _) & _ & _ & B2 & _).
    cbn [B64Ref.b2a].
    rewrite a2b_first, a2b_second, a2b_third, a2b_pad1 by assumption.
    rewrite A1, B2, (to_byte_of a), (to_byte_of b) by assumption.
    rewrite <- app_assoc. reflexivity.
  - destruct (regroups_facts (Byte.to_N a) (Byte.to_N b) (byte_below a) (byte_below b))
      as ((L0 & L1 & _ & _) & E0 & A1 & _ & _ & D1 & _).
    destruct (regroups_facts (Byte.to_N b) (Byte.to_N c) (byte_below b) (byte_below c))
      as ((_ & _ & L2 & L3) & _ & _ & B2 & C2 & _ & D2).
    cbn [B64Ref.b2a app].
    rewrite a2b_first, a2b_second, a2b_third, a2b_fourth by assumption.
    rewrite IH by (cbn in Hlen; lia).
    rewrite A1, B2, C2, (to_byte_of a), (to_byte_of b), (to_byte_of c) by assumption.
    rewrite <- !app_assoc. reflexivity.
Qed.

Lemma b2a_ascii bs : forallb (λ c, c <? 128)%N (B64Ref.b2a bs) = true.
Proof.
  assert (H : ∀ n bs, length bs ≤ n →
              forallb (λ c, c <? 128)%N (B64Ref.b2a bs) = true).
  { clear bs. induction n as [|n IH]; intros bs Hlen.
    { destruct bs; [reflexivity|cbn in Hlen; lia]. }
    destruct bs as [|a [|b [|c rest]]]; [reflexivity|..].
    - destruct (regroups_facts (Byte.to_N a) 0 (byte_below a) eq_refl)
        as ((L0 & L1 & _ & _) & _).
      cbn [B64Ref.b2a forallb].
      rewrite (proj2 (proj2 (char_index _ L0))), (proj2 (proj2 (char_index _ L1))).
      reflexivity.
    - destruct (regroups_facts (Byte.to_N a) (Byte.to_N b) (byte_below a) (byte_below b))
        as ((L0 & L1 & _ & _) & _).
      destruct (regroups_facts (Byte.to_N b) 0 (byte_below b) eq_refl)
        as ((_ & _ & L2 & _) & _).
      cbn [B64Ref.b2a forallb].
      rewrite (proj2 (proj2 (char_index _ L0))), (proj2 (proj2 (char_index _ L1))),
        (proj2 (proj2 (char_index _ L2))).
      reflexivity.
    - destruct (regroups_facts (Byte.to_N a) (Byte.to_N b) (byte_below a) (byte_below b))
        as ((L0 & L1 & _ & _) & _).
      destruct (regroups_facts (Byte.to_N b) (Byte.to_N c) (byte_below b) (byte_below c))
        as ((_ & _ & L2 & L3) & _).
      cbn [B64Ref.b2a app forallb].
      rewrite (proj2 (proj2 (char_index _ L0))), (proj2 (proj2 (char_index _ L1))),
        (proj2 (proj2 (char_index _ L2))), (proj2 (proj2 (char_index _ L3))).
      apply IH. cbn in Hlen. lia. }
  apply (H (length bs)). reflexivity.
Qed.

(** [b64decode(b64encode(bs)) == bs] *)
Lemma b64decode_b2a bs : Base64.b64decode (Some (B64Ref.b2a bs)) = inr bs.
Proof.
  unfold Base64.b64decode. rewrite b2a_ascii.
  apply (a2b_b2a (length bs) bs []). reflexivity.
Qed.

Example b2a_hi : B64Ref.b2a ["H"; "i"]%byte = Py.lit "SGk=".
Proof. reflexivity. Qed.

(* ===================================================================== *)
(** * C9: what a successful subject writes *)
(* ===================================================================== *)

(** What an attempt that returned has done. *)
Lemma attempt_returned E args style_bytes prompt p w w' :
  attempt E args style_bytes prompt p w = (inr tt, w') →
  ∃ resp w1 b64 content,
    request_image E args style_bytes prompt w = (inr resp, w1)
    ∧ first_b64 resp = inr b64
    ∧ Base64.b64decode b64 = inr content
    ∧ trace w' = trace w1 ++ [OpenWb p; Write p content]
    ∧ files w' = <[p := content]> (files w)
    ∧ files w' !! p = Some content.
Proof.
  pose proof (request_image_files E args style_bytes prompt w) as Hf.
  rewrite attempt_run.
  destruct (request_image E args style_bytes prompt w) as [[x0|resp0] w0];
    cbn in Hf; [discriminate|].
  destruct (first_b64 resp0) as [y|b64] eqn:Hb; [discriminate|]. cbn.
  destruct (open_wb E (trace w0) _) as [e|]; [discriminate|].
  destruct (Base64.b64decode b64) as [y|content] eqn:Hd; [discriminate|].
  destruct (write_close E _ _ content) as [[k e]|]; [discriminate|].
  intros [= <-]. exists resp0, w0, b64, content. cbn.
  rewrite <- app_assoc, insert_insert_eq, Hf, lookup_insert_eq. auto 10.
Qed.

(** Its last event is the write, and the file holds what was written. *)
Lemma attempt_returned_file E args style_bytes prompt p w w' :
  attempt E args style_bytes prompt p w = (inr tt, w') →
  ∃ content,
    last (trace w') = Some (Write p content)
    ∧ files w' = <[p := content]> (files w)
    ∧ files w' !! p = Some content.
Proof.
  intros Hrun.
  destruct (attempt_returned _ _ _ _ _ _ _ Hrun)
    as (resp & w1 & b64 & content & _ & _ & _ & Ht & Hfs & Hl).
  exists content. rewrite Ht. split; [|auto].
  change [OpenWb ?a; ?b] with ([OpenWb a] ++ [b]).
  rewrite app_assoc. apply last_snoc.
Qed.

(** C9.  The attempt returns exactly when the request returned a
    response, the response has a first image, the file could be opened,
    the payload decodes and the write went through.  Then the only write
    is that of the decoded payload, and the file holds exactly it.  The
    decoding loses nothing: it gives back every byte string from its
    base64 encoding. *)
Theorem written_is_decoded_payload E args style_bytes person_name w :
  let p := out_path_of args person_name in
  let prompt := make_prompt person_name in
  (∀ w', attempt E args style_bytes prompt p w = (inr tt, w') →
     ∃ resp w1 b64 content,
       request_image E args style_bytes prompt w = (inr resp, w1)
       ∧ first_b64 resp = inr b64
       ∧ Base64.b64decode b64 = inr content
       ∧ trace w' = trace w1 ++ [OpenWb p; Write p content]
       ∧ files w' = <[p := content]> (files w)
       ∧ files w' !! p = Some content)
  ∧ (∀ resp w1 b64 content,
       request_image E args style_bytes prompt w = (inr resp, w1) →
       first_b64 resp = inr b64 →
       Base64.b64decode b64 = inr content →
       open_wb E (trace w1) p = None →
       write_close E (trace w1 ++ [OpenWb p]) p content = None →
       (attempt E args style_bytes prompt p w).1 = inr tt
       ∧ files (attempt E args style_bytes prompt p w).2 !! p = Some content)
  ∧ (∀ image, Base64.b64decode (Some (B64Ref.b2a image)) = inr image).
Proof.
  cbn zeta. split; [intros w'; apply attempt_returned|].
  split; [|apply b64decode_b2a].
  rewrite attempt_run.
  destruct (request_image E args style_bytes (make_prompt person_name) w)
    as [[x0|resp0] w0].
  { intros; discriminate. }
  intros resp w1 b64 content [= <- <-] -> -> ->. cbn. intros ->. cbn.
  rewrite lookup_insert_eq. auto.
Qed.

(** C9 on a run that succeeds: the payload [SGk=] decodes to the two
    bytes of [Hi], and the file holds them. *)
Lemma written_is_decoded_payload_witness :
  files (attempt env0 args0 None (make_prompt jane) (out_path_of args0 jane)
           world_old).2 !! out_path_of args0 jane
  = Some ["H"; "i"]%byte.
Proof.
  apply (proj1 (proj2 (written_is_decoded_payload env0 args0 None jane world_old))
           (reply "SGk=")
           (log (Request (Generate (primary args0 (make_prompt jane)))) world_old)
           (Some (Py.lit "SGk="))); reflexivity.
Defined.

(* ===================================================================== *)
(** * C6: the output path *)
(* ===================================================================== *)

Lemma lower_format_name f : Py.lower (format_name f) = format_name f.
Proof. destruct f; reflexivity. Qed.

(** C6.  The output path is the output directory joined with a file name:
    the subject's name, in which each space has become an underscore and
    nothing else has changed, then a dot and the format.  Jane Doe as png
    goes to Jane_Doe.png.  A successful attempt leaves at that path what
    it wrote, whatever was there. *)
Theorem output_path args person_name :
  let p := out_path_of args person_name in
  let stem := Py.replace space underscore person_name in
  p = (Args.out args, stem ++ Py.lit "." ++ format_name (Args.format args))
  ∧ length stem = length person_name
  ∧ (∀ i c, person_name !! i = Some c →
       stem !! i = Some (if (c =? space)%N then underscore else c))
  ∧ (Args.format args = Png → person_name = Py.lit "Jane Doe" →
       p.2 = Py.lit "Jane_Doe.png")
  ∧ (∀ E style_bytes w w',
       attempt E args style_bytes (make_prompt person_name) p w = (inr tt, w') →
       ∃ content,
         last (trace w') = Some (Write p content)
         ∧ files w' = <[p := content]> (files w)
         ∧ files w' !! p = Some content).
Proof.
  cbn zeta. split; [|split; [|split; [|split]]].
  - unfold out_path_of, output_format. rewrite lower_format_name. reflexivity.
  - unfold Py.replace. apply length_fmap.
  - intros i c Hc. unfold Py.replace. rewrite list_lookup_fmap, Hc. reflexivity.
  - intros Hf ->. unfold out_path_of, output_format. rewrite Hf. reflexivity.
  - intros E style_bytes w w'. apply attempt_returned_file.
Qed.

(** C6 on Jane Doe, whose earlier portrait is replaced. *)
Lemma output_path_witness :
  (out_path_of args0 jane).2 = Py.lit "Jane_Doe.png"
  ∧ ∃ content,
      last (trace (attempt env0 args0 None (make_prompt jane)
                     (out_path_of args0 jane) world_old).2)
      = Some (Write (out_path_of args0 jane) content)
      ∧ files (attempt env0 args0 None (make_prompt jane)
                 (out_path_of args0 jane) world_old).2
        = <[out_path_of args0 jane := content]> (files world_old)
      ∧ files (attempt env0 args0 None (make_prompt jane)
                 (out_path_of args0 jane) world_old).2
          !! out_path_of args0 jane = Some content.
Proof.
  split.
  - apply (proj1 (proj2 (proj2 (proj2 (output_path args0 jane))))); reflexivity.
  - apply (proj2 (proj2 (proj2 (proj2 (output_path args0 jane)))) env0 None world_old).
    vm_compute. reflexivity.
Defined.

(* ===================================================================== *)
(** * The loop *)
(* ===================================================================== *)

Lemma keep_row_named r :
  keep_row r = inr true →
  ∃ s, r !! Some name_key = Some (VStr s) ∧ Py.strip s ≠ [].
Proof.
  unfold keep_row, dict_get.
  destruct (r !! Some name_key) as [[s| |l]|]; cbn; try discriminate.
  intros [= Ht]. exists s. split; [reflexivity|].
  destruct (Py.strip s); [discriminate|done].
Qed.

Lemma comprehension_cons r rs :
  comprehension (r :: rs) =
  match keep_row r with
  | inl x => inl x
  | inr b =>
      match comprehension rs with
      | inl x => inl x
      | inr l => inr (if b then r :: l else l)
      end
  end.
Proof. reflexivity. Qed.

Lemma comprehension_named rows0 rows :
  comprehension rows0 = inr rows → Forall named rows.
Proof.
  revert rows. induction rows0 as [|r rows0 IH]; intros rows.
  - intros [= <-]. constructor.
  - rewrite comprehension_cons. destruct (keep_row r) as [x|b] eqn:Hk; [discriminate|].
    destruct (comprehension rows0) as [x|l]; [discriminate|].
    intros [= <-]. destruct b; [|auto].
    constructor; [|auto].
    destruct (keep_row_named r Hk) as (s & Hs & _).
    exists (Py.strip s). unfold person_name_of, getitem. rewrite Hs. reflexivity.
Qed.

Lemma load_rows_named records rows :
  load_rows records = inr rows → Forall named rows.
Proof.
  unfold load_rows. destruct records as [|fieldnames rest]; [discriminate|].
  case_bool_decide; [|discriminate]. apply comprehension_named.
Qed.

Lemma iteration_run E args style_bytes total i row person_name w :
  person_name_of row = inr person_name →
  iteration E args style_bytes total i row w =
  guarded E args style_bytes person_name
    (log (Print (Progress i total person_name (out_path_of args person_name))) w).
Proof.
  intros Hn. unfold iteration. rewrite run_bind. unfold lift at 1.
  rewrite Hn. reflexivity.
Qed.

(** Between the progress line and the sleep, a subject adds only requests,
    opens, writes and error lines. *)
Lemma guarded_trace E args style_bytes person_name w :
  ∃ evs, trace (guarded E args style_bytes person_name w).2
         = trace w ++ evs ++ [Sleep (Args.sleep args)]
         ∧ forallb inner evs = true.
Proof.
  rewrite guarded_run.
  destruct (spec_attempt E args style_bytes (λ evs, forallb inner evs = true))
    with (prompt := make_prompt person_name) (p := out_path_of args person_name)
         (w := w) as (evs & Ht & HQ & _); auto.
  { intros a b Ha Hb. rewrite forallb_app, Ha, Hb. reflexivity. }
  destruct (attempt E args style_bytes _ _ w) as [[[e|msg]|[]] w1]; cbn in *.
  - exists (evs ++ [Print (ErrorLine person_name e)]). rewrite Ht.
    rewrite forallb_app, HQ, <- !app_assoc. auto.
  - exists evs. rewrite Ht, <- app_assoc. auto.
  - exists evs. rewrite Ht, <- app_assoc. auto.
Qed.

Lemma inner_not_attempted evs : forallb inner evs = true → attempted evs = [].
Proof.
  induction evs as [|[[]| | | |] evs IH]; cbn; try discriminate; auto.
Qed.


Lemma for_enumerate_cons {A} (body : nat → A → M unit) i x l w :
  for_enumerate body i (x :: l) w =
  match body i x w with
  | (inl r, w') => (inl r, w')
  | (inr _, w') => for_enumerate body (S i) l w'
  end.
Proof. reflexivity. Qed.

Lemma subject_names_cons row rows n :
  person_name_of row = inr n →
  subject_names (row :: rows) = n :: subject_names rows.
Proof.
  intros Hn. unfold subject_names. cbn -[person_name_of]. rewrite Hn. reflexivity.
Qed.

(** With a sleep that returns, the loop passes over every row. *)
Lemma loop_attempts_all E args style_bytes total rows :
  time_sleep E (Args.sleep args) = None → Forall named rows →
  ∀ i w,
    let r := for_enumerate (iteration E args style_bytes total) i rows w in
    r.1 = inr tt
    ∧ ∃ evs, trace r.2 = trace w ++ evs ∧ attempted evs = subject_names rows.
Proof.
  intros Hsleep. induction 1 as [|row rows [n Hn] _ IH]; intros i w; cbn zeta.
  - split; [reflexivity|]. exists []. cbn. rewrite app_nil_r. auto.
  - rewrite for_enumerate_cons, (iteration_run _ _ _ _ _ _ n) by exact Hn.
    rewrite (subject_names_cons _ _ n) by exact Hn.
    set (w0 := log _ w).
    destruct (guarded_trace E args style_bytes n w0) as (evs & Ht & Hin).
    pose proof (guarded_run E args style_bytes n w0) as Hg.
    rewrite Hsleep in Hg.
    destruct (guarded E args style_bytes n w0) as [r w1].
    destruct (attempt E args style_bytes _ _ w0) as [r0 w0'].
    injection Hg as -> _. cbn in Ht.
    destruct (IH (S i) w1) as (Hr & evs' & Ht' & Ha).
    split; [exact Hr|].
    exists (Print (Progress i total n (out_path_of args n)) :: evs
            ++ [Sleep (Args.sleep args)] ++ evs').
    split.
    + rewrite Ht', Ht. cbn. rewrite <- !app_assoc. reflexivity.
    + change (attempted ([Print (Progress i total n (out_path_of args n))]
                         ++ evs ++ [Sleep (Args.sleep args)] ++ evs')
              = n :: subject_names rows).
      rewrite !attempted_app, Ha, (inner_not_attempted evs Hin). reflexivity.
Qed.

Lemma subject_names_length rows :
  Forall named rows → length (subject_names rows) = length rows.
Proof.
  induction 1 as [|row rows [n Hn] _ IH]; [reflexivity|].
  rewrite (subject_names_cons _ _ n) by exact Hn. cbn. rewrite IH. reflexivity.
Qed.

(* ===================================================================== *)
(** * C2: a failed subject does not stop the batch *)
(* ===================================================================== *)

(** C2, amended.  For a batch that [load_rows] produced and a sleep that
    returns:
    the loop runs to its end and begins every subject of the batch, in
    order, whatever the provider and the file system do; and whenever the
    body of the [try] fails for a subject, what it raised is an
    [Exception], the error line with the subject's name is printed, the
    sleep follows, and the pass of the loop returns. *)
Theorem failure_isolation E args style_bytes records rows w :
  load_rows records = inr rows →
  time_sleep E (Args.sleep args) = None →
  (batch E args style_bytes rows w).1 = inr tt
  ∧ (∃ evs, trace (batch E args style_bytes rows w).2 = trace w ++ evs
            ∧ attempted evs = subject_names rows)
  ∧ length (subject_names rows) = length rows
  ∧ (∀ person_name w0 x w1,
       attempt E args style_bytes (make_prompt person_name)
         (out_path_of args person_name) w0 = (inl x, w1) →
       ∃ e, x = Exn e
            ∧ guarded E args style_bytes person_name w0 =
                (inr tt,
                 log (Sleep (Args.sleep args))
                   (log (Print (ErrorLine person_name e)) w1))).
Proof.
  intros Hload Hsleep.
  pose proof (load_rows_named _ _ Hload) as Hnamed.
  destruct (loop_attempts_all E args style_bytes (length rows) rows Hsleep Hnamed 1 w)
    as [Hr Hevs].
  split; [exact Hr|]. split; [exact Hevs|].
  split; [apply subject_names_length, Hnamed|].
  intros person_name w0 x w1 Ha.
  pose proof (attempt_no_exit E args style_bytes (make_prompt person_name)
                (out_path_of args person_name) w0) as Hx.
  rewrite guarded_run, Ha, Hsleep. rewrite Ha in Hx.
  destruct x as [e|msg]; [|destruct (Hx msg eq_refl)].
  exists e. auto.
Qed.

Lemma load_table0 : load_rows table0 = inr rows0.
Proof. vm_compute. reflexivity. Qed.

(** C2 against a provider that is down for every subject: the loop
    returns, Jane Doe and Bob were both begun and both logged. *)
Lemma failure_isolation_witness :
  (batch env_down args0 None rows0 world0).1 = inr tt
  ∧ attempted (trace (batch env_down args0 None rows0 world0).2)
    = [Py.lit "Jane Doe"; Py.lit "Bob"]
  ∧ failed (trace (batch env_down args0 None rows0 world0).2)
    = [Py.lit "Jane Doe"; Py.lit "Bob"].
Proof.
  split.
  - exact (proj1 (failure_isolation env_down args0 None table0 rows0 world0
                    load_table0 eq_refl)).
  - vm_compute. split; reflexivity.
Defined.

(** C2 as it was written, refuted: the provider is down and the command
    line says [--sleep -1].  Jane Doe fails and her error line is printed;
    then [time.sleep] in the [finally] raises [ValueError], which no
    handler catches: the run ends with it, Bob is never begun and the
    closing line is not printed. *)
Lemma failure_then_bad_sleep_stops_batch :
  let r := run env_down_checked_sleep args_negative_sleep ∅ in
  load_rows table0 = inr rows0
  ∧ subject_names rows0 = [Py.lit "Jane Doe"; Py.lit "Bob"]
  ∧ failed (trace r.2) = [Py.lit "Jane Doe"]
  ∧ attempted (trace r.2) = [Py.lit "Jane Doe"]
  ∧ r.1 = inl (Exn (Exc ValueError (Py.lit "sleep length must be non-negative")))
  ∧ (batch env_down_checked_sleep args_negative_sleep None rows0 world0).1
    = inl (Exn (Exc ValueError (Py.lit "sleep length must be non-negative"))).
Proof. vm_compute. repeat split; reflexivity. Qed.

(* ===================================================================== *)
(** * C8: the sleep after every subject *)
(* ===================================================================== *)

Lemma touched_app a b : touched (a ++ b) = touched a ++ touched b.
Proof. apply omap_app. Qed.

Lemma failed_events_app a b : failed (a ++ b) = failed a ++ failed b.
Proof. apply omap_app. Qed.

(** Requests are no sleeps, no progress lines, no opens and no error
    lines. *)
Lemma request_events reqs :
  requests (Request <$> reqs) = reqs
  ∧ forallb inner (Request <$> reqs) = true
  ∧ touched (Request <$> reqs) = []
  ∧ failed (Request <$> reqs) = [].
Proof.
  induction reqs as [|r reqs (IH1 & IH2 & IH3 & IH4)]; [auto|].
  rewrite fmap_cons. repeat split; [|exact IH2|exact IH3|exact IH4].
  change (requests (Request r :: (Request <$> reqs)))
    with (r :: requests (Request <$> reqs)).
  rewrite IH1. reflexivity.
Qed.

(** The request step adds requests only, each with the given prompt. *)
Lemma request_image_events E args style_bytes prompt w :
  ∃ reqs,
    trace (request_image E args style_bytes prompt w).2
    = trace w ++ (Request <$> reqs)
    ∧ Forall (λ r, request_prompt r = prompt) reqs.
Proof.
  assert (Hgen : Py.truthy (default [] style_bytes) = false →
    ∃ reqs,
      trace (request_image E args style_bytes prompt w).2
      = trace w ++ (Request <$> reqs)
      ∧ Forall (λ r, request_prompt r = prompt) reqs).
  { intros Hs. rewrite (request_image_generate E args style_bytes prompt w Hs).
    cbn zeta.
    destruct (images_generate E (trace w) _) as [e|resp];
      [destruct (is_TypeError e)|]; cbn [snd trace log].
    - exists [Generate (primary args prompt);
              Generate (without_quality (primary args prompt))].
      rewrite <- app_assoc. split; [reflexivity|]. repeat constructor.
    - exists [Generate (primary args prompt)].
      split; [reflexivity|]. repeat constructor.
    - exists [Generate (primary args prompt)].
      split; [reflexivity|]. repeat constructor. }
  destruct style_bytes as [[|b bs]|]; [apply Hgen; reflexivity| |apply Hgen; reflexivity].
  destruct (style_name E args) as [x|name] eqn:Hn.
  - exists []. unfold request_image. cbn. rewrite Hn. cbn.
    rewrite app_nil_r. split; [reflexivity|constructor].
  - rewrite (request_image_edit E args b bs prompt name w Hn). cbn [snd trace log].
    eexists [Edit _]. split; [reflexivity|]. repeat constructor.
Qed.

(** After the request step the attempt adds at most the open and the
    write, both on its path. *)
Lemma attempt_tail E args style_bytes prompt p w :
  ∃ tl,
    trace (attempt E args style_bytes prompt p w).2
    = trace (request_image E args style_bytes prompt w).2 ++ tl
    ∧ (tl = [] ∨ tl = [OpenWb p] ∨ ∃ c, tl = [OpenWb p; Write p c]).
Proof.
  rewrite attempt_run.
  destruct (request_image E args style_bytes prompt w) as [[x|resp] w1];
    cbn [snd].
  { exists []. rewrite app_nil_r. auto. }
  destruct (first_b64 resp) as [x|b64]; cbn [snd].
  { exists []. rewrite app_nil_r. auto. }
  destruct (open_wb E (trace w1) p) as [e|]; cbn [snd trace log].
  { exists [OpenWb p]. auto. }
  destruct (Base64.b64decode b64) as [x|content]; cbn [snd trace log store].
  { exists [OpenWb p]. auto. }
  destruct (write_close E _ p content) as [[k e]|]; cbn [snd trace log store];
    exists [OpenWb p; Write p content]; rewrite <- app_assoc; eauto.
Qed.

(** What one subject adds to the trace, whether its attempt returns or
    raises. *)
Lemma guarded_chunk E args style_bytes person_name w :
  ∃ evs,
    trace (guarded E args style_bytes person_name w).2
    = trace w ++ evs ++ [Sleep (Args.sleep args)]
    ∧ forallb inner evs = true
    ∧ Forall (λ r, request_prompt r = make_prompt person_name) (requests evs)
    ∧ Forall (λ p, p = out_path_of args person_name) (touched evs)
    ∧ Forall (λ n, n = person_name) (failed evs).
Proof.
  rewrite guarded_run.
  destruct (request_image_events E args style_bytes (make_prompt person_name) w)
    as (reqs & Hreq & Hprompt).
  destruct (attempt_tail E args style_bytes (make_prompt person_name)
              (out_path_of args person_name) w) as (tl & Htl & Hshape).
  rewrite Hreq in Htl.
  destruct (request_events reqs) as (R1 & R2 & R3 & R4).
  destruct (attempt E args style_bytes _ _ w) as [r w1]. cbn [snd] in Htl.
  set (err := match r with
              | inl (Exn e) => [Print (ErrorLine person_name e)]
              | _ => []
              end).
  exists ((Request <$> reqs) ++ tl ++ err).
  assert (Herr : (err = [] ∨ ∃ e, err = [Print (ErrorLine person_name e)]))
    by (unfold err; destruct r as [[e|msg]|[]]; eauto).
  split.
  { destruct r as [[e|msg]|[]]; cbn [snd trace log]; rewrite Htl; subst err;
      rewrite <- ?app_assoc, ?app_nil_r; reflexivity. }
  rewrite !forallb_app, !requests_app, !touched_app, !failed_events_app.
  rewrite R1, R2, R3, R4.
  destruct Hshape as [->|[->|[c ->]]], Herr as [->|[e ->]];
    (split; [reflexivity|]);
    (split; [rewrite app_nil_r; exact Hprompt|]);
    split; repeat constructor.
Qed.

(** The loop, subject by subject: the trace it adds is one chunk per
    subject begun, in the order of the batch; it goes on to the next
    subject exactly when the sleep of the last one returned. *)
Lemma loop_chunks E args style_bytes total rows :
  ∀ i w,
    ∃ chunks,
      trace (for_enumerate (iteration E args style_bytes total) i rows w).2
      = trace w ++ concat chunks
      ∧ Forall2 (subject_chunk args)
          (take (length chunks) (subject_names rows)) chunks
      ∧ (Forall named rows → time_sleep E (Args.sleep args) = None →
         (for_enumerate (iteration E args style_bytes total) i rows w).1 = inr tt
         ∧ length chunks = length rows)
      ∧ (Forall named rows → rows ≠ [] →
         ∀ e, time_sleep E (Args.sleep args) = Some e →
              (for_enumerate (iteration E args style_bytes total) i rows w).1
              = inl (Exn e)
              ∧ length chunks = 1).
Proof.
  induction rows as [|row rows IH]; intros i w.
  { exists []. cbn. rewrite app_nil_r.
    split; [reflexivity|]. split; [constructor|].
    split; [auto|]. intros _ Hne. destruct (Hne eq_refl). }
  rewrite for_enumerate_cons.
  destruct (person_name_of row) as [x|n] eqn:Hn.
  { exists []. unfold iteration. rewrite run_bind. unfold lift at 1. rewrite Hn.
    cbn [fst snd concat length take]. rewrite app_nil_r.
    split; [reflexivity|]. split; [constructor|].
    split; intros Hall; apply Forall_cons in Hall as [[n' Hn'] _]; congruence. }
  rewrite (iteration_run _ _ _ _ _ _ n) by exact Hn.
  rewrite (subject_names_cons _ _ n Hn).
  set (w0 := log (Print (Progress i total n (out_path_of args n))) w).
  destruct (guarded_chunk E args style_bytes n w0)
    as (evs & Ht & Hin & Hp & Hq & Hf).
  pose proof (guarded_run E args style_bytes n w0) as Hg.
  assert (Hchunk : subject_chunk args n
            (Print (Progress i total n (out_path_of args n))
             :: evs ++ [Sleep (Args.sleep args)]))
    by (exists i, total, evs; auto).
  destruct (guarded E args style_bytes n w0) as [r w1].
  destruct (attempt E args style_bytes _ _ w0) as [r0 w0'].
  cbn [snd] in Ht.
  destruct (time_sleep E (Args.sleep args)) as [e|] eqn:Hsleep;
    injection Hg as -> _.
  - exists [Print (Progress i total n (out_path_of args n))
            :: evs ++ [Sleep (Args.sleep args)]].
    cbn [fst snd concat length take]. rewrite app_nil_r.
    split; [rewrite Ht; unfold w0; cbn [trace log];
            rewrite <- !app_assoc; reflexivity|].
    split; [repeat constructor; exact Hchunk|].
    split; [intros _ Hnone; discriminate Hnone|].
    intros _ _ e' [= <-]. auto.
  - destruct (IH (S i) w1) as (chunks & Ht' & Hall & Hnone & Hsome).
    exists ((Print (Progress i total n (out_path_of args n))
             :: evs ++ [Sleep (Args.sleep args)]) :: chunks).
    cbn [fst snd concat length take].
    split; [rewrite Ht', Ht; unfold w0; cbn [trace log app];
            rewrite <- ?app_assoc; cbn [app]; rewrite <- ?app_assoc;
            reflexivity|].
    split; [constructor; [exact Hchunk|exact Hall]|].
    split.
    + intros Hnamed _. apply Forall_cons in Hnamed as [_ Hnamed].
      destruct (Hnone Hnamed eq_refl) as [Hr Hlen]. rewrite Hlen. auto.
    + intros _ _ e' He'. discriminate He'.
Qed.




(* ===================================================================== *)
(** * C7: the prompt *)
(* ===================================================================== *)

Lemma startswith_app n rest : Py.startswith n (n ++ rest) = true.
Proof.
  induction n as [|c n IH]; [reflexivity|].
  cbn. rewrite N.eqb_refl. exact IH.
Qed.

Lemma contains_unfold hay needle :
  Py.contains hay needle =
  Py.startswith needle hay
  || match hay with [] => false | _ :: hay' => Py.contains hay' needle end.
Proof. destruct hay; reflexivity. Qed.

Lemma contains_app before n after : Py.contains (before ++ n ++ after) n = true.
Proof.
  induction before as [|c before IH]; rewrite contains_unfold.
  - cbn [app]. rewrite startswith_app. reflexivity.
  - cbn [app]. rewrite IH. apply orb_true_r.
Qed.

(** C7.  The prompt is the fixed head, the name, the fixed tail: a
    function of the name alone.  So it contains the name, and the prompts
    of two names agree before the name and after it. *)
Theorem prompt_embeds_name :
  (∀ person_name,
     make_prompt person_name = prompt_head ++ person_name ++ prompt_tail)
  ∧ (∀ person_name, person_name ≠ [] →
       Py.contains (make_prompt person_name) person_name = true)
  ∧ (∀ n1 n2,
       take (length prompt_head) (make_prompt n1)
       = take (length prompt_head) (make_prompt n2)
       ∧ drop (length prompt_head + length n1) (make_prompt n1)
         = drop (length prompt_head + length n2) (make_prompt n2)).
Proof.
  split; [reflexivity|]. split.
  - intros person_name _. apply contains_app.
  - intros n1 n2. unfold make_prompt. split.
    + rewrite !take_app_length. reflexivity.
    + rewrite !app_assoc, <- !length_app, !drop_app_length. reflexivity.
Qed.

(** C7 on Jane Doe. *)
Lemma prompt_embeds_name_witness :
  Py.contains (make_prompt jane) jane = true.
Proof.
  apply (proj1 (proj2 prompt_embeds_name) jane). discriminate.
Defined.

(* ===================================================================== *)
(** * C10: two names, one file *)
(* ===================================================================== *)

(** C10.  Names that agree once spaces are underscores have the same
    output path, so a successful attempt for one leaves its bytes where
    the other's were.  In the batch of Jane Doe and Jane_Doe both
    succeed, both writes go to out/Jane_Doe.png, and the run ends with
    one file, holding the second portrait. *)
Theorem same_path_for_twins :
  (∀ args n1 n2,
     Py.replace space underscore n1 = Py.replace space underscore n2 →
     out_path_of args n1 = out_path_of args n2
     ∧ ∀ E style_bytes w w',
         attempt E args style_bytes (make_prompt n2) (out_path_of args n2) w
           = (inr tt, w') →
         ∃ content, last (trace w') = Some (Write (out_path_of args n1) content)
                    ∧ files w' !! out_path_of args n1 = Some content)
  ∧ (Py.strip (Py.lit "Jane Doe") ≠ Py.strip (Py.lit "Jane_Doe")
     ∧ let r := run env_twins args0 ∅ in
       let p := (Py.lit "out", Py.lit "Jane_Doe.png") in
       r.1 = inr tt
       ∧ attempted (trace r.2) = [Py.lit "Jane Doe"; Py.lit "Jane_Doe"]
       ∧ failed (trace r.2) = []
       ∧ writes (trace r.2) = [(p, ["A"]%byte); (p, ["B"]%byte)]
       ∧ size (files r.2) = 1
       ∧ files r.2 !! p = Some ["B"]%byte).
Proof.
  split.
  - intros args n1 n2 Heq.
    assert (Hp : out_path_of args n1 = out_path_of args n2)
      by (unfold out_path_of; rewrite Heq; reflexivity).
    split; [exact Hp|].
    intros E style_bytes w w' Hrun. rewrite Hp.
    destruct (attempt_returned_file _ _ _ _ _ _ _ Hrun) as (content & Hl & _ & Hf).
    exists content. auto.
  - split; [discriminate|]. vm_compute. repeat split; reflexivity.
Qed.

(** C10 on Jane Doe and Jane_Doe. *)
Lemma same_path_for_twins_witness :
  out_path_of args0 (Py.lit "Jane Doe") = out_path_of args0 (Py.lit "Jane_Doe").
Proof.
  apply (proj1 same_path_for_twins args0 (Py.lit "Jane Doe") (Py.lit "Jane_Doe")).
  reflexivity.
Defined.

(* ===================================================================== *)
(** * C4: the batch *)
(* ===================================================================== *)

Lemma zipped_lookup (kvs : list (Py.str * Py.str)) (d : dict) k :
  k ∈ kvs.*1 →
  ∃ s, foldl (λ (d : dict) kv, <[Some kv.1 := VStr kv.2]> d) d kvs !! Some k
       = Some (VStr s).
Proof.
  induction kvs as [|[k' v'] kvs IH] using rev_ind; [intros H; inversion H|].
  rewrite fmap_app, foldl_app. cbn. intros [Hin|Hin]%elem_of_app.
  - destruct (decide (k' = k)) as [->|Hne].
    + exists v'. apply lookup_insert_eq.
    + rewrite lookup_insert_ne by congruence. auto.
  - apply list_elem_of_singleton in Hin as ->. exists v'. apply lookup_insert_eq.
Qed.

(** A record with a field for every column gives a row whose name is a
    string. *)
Lemma dict_of_record_name fieldnames record :
  name_key ∈ fieldnames → length fieldnames ≤ length record →
  ∃ s, dict_of_record fieldnames record !! Some name_key = Some (VStr s).
Proof.
  intros Hin Hlen. unfold dict_of_record.
  destruct (zipped_lookup (zip fieldnames record) ∅ name_key) as [s Hs].
  { rewrite fst_zip by exact Hlen. exact Hin. }
  destruct (Nat.ltb_spec (length fieldnames) (length record)).
  - exists s. rewrite lookup_insert_ne by discriminate. exact Hs.
  - destruct (Nat.ltb_spec (length record) (length fieldnames)); [lia|].
    exists s. exact Hs.
Qed.

Lemma comprehension_filter rows :
  Forall (λ r : dict, ∃ s, r !! Some name_key = Some (VStr s)) rows →
  comprehension rows = inr (List.filter has_name rows).
Proof.
  induction 1 as [|r rows [s Hs] _ IH]; [reflexivity|].
  assert (Hk : keep_row r = inr (has_name r))
    by (unfold keep_row, dict_get, has_name; rewrite Hs; reflexivity).
  rewrite comprehension_cons, IH, Hk. reflexivity.
Qed.

(** On a table whose records all are complete, the batch is the rows
    with a name that is not blank, in the order of the table. *)
Lemma load_rows_complete fieldnames rest :
  name_key ∈ fieldnames → Forall (complete fieldnames) rest →
  load_rows (fieldnames :: rest)
  = inr (List.filter has_name (dict_rows fieldnames rest)).
Proof.
  intros Hin Hall. unfold load_rows. rewrite bool_decide_eq_true_2 by exact Hin.
  apply comprehension_filter. unfold dict_rows.
  apply Forall_fmap, Forall_forall. intros record Hr.
  apply list_elem_of_In, filter_In in Hr as [Hr Ht].
  apply dict_of_record_name; [exact Hin|].
  apply list_elem_of_In in Hr.
  destruct (proj1 (Forall_forall _ _) Hall record Hr) as [->|Hlen];
    [discriminate Ht|exact Hlen].
Qed.

(** C4 fails on a table with a short row.  Under the header [id,name],
    the row [2] gets [None] for its name, [None.strip()] raises
    [AttributeError] inside the comprehension, and the run ends there:
    no batch, no mode line, no subject.  (On complete tables the batch is
    as C4 says: [load_rows_complete].) *)
Theorem short_row_aborts_load :
  Forall (λ record, record ≠ []) table_short
  ∧ load_rows table_short
    = throw AttributeError "'NoneType' object has no attribute 'strip'"
  ∧ run env_short args0 ∅
    = (throw AttributeError "'NoneType' object has no attribute 'strip'",
       world0).
Proof.
  split; [repeat constructor; discriminate|].
  split; vm_compute; reflexivity.
Qed.

(* ===================================================================== *)
(** * Before the loop *)
(* ===================================================================== *)

(** Any computation of [main] only appends to the trace. *)
Lemma batch_extends E args style_bytes rows :
  spec (λ _, True) (λ _, True) (batch E args style_bytes rows).
Proof. apply spec_batch; auto. Qed.

Lemma run_ret {A} (x : A) w : (ret x : M A) w = (inr x, w).
Proof. reflexivity. Qed.

(** [main] once the directory, the client and the table are there. *)
Lemma main_loaded E args records rows w :
  mkdir E (Args.out args) = None → new_client E = None →
  csv_records E (Args.csv args) = inr records →
  load_rows records = inr rows →
  main E args w =
  match load_style E args w with
  | (inl x, w1) => (inl x, w1)
  | (inr style_bytes, w1) =>
      match batch E args style_bytes rows w1 with
      | (inl x, w2) => (inl x, w2)
      | (inr _, w2) => (inr tt, log (Print (DoneLine (Args.out args))) w2)
      end
  end.
Proof.
  intros Hd Hc Hr Hl. unfold main. rewrite Hd, Hc, Hr. cbn [raise_if of_sum].
  do 3 (rewrite run_bind, run_ret; cbv beta iota).
  rewrite run_bind. unfold lift at 1. rewrite Hl. cbv beta iota.
  rewrite run_bind.
  destruct (load_style E args w) as [[x|sb] w1]; [reflexivity|].
  rewrite run_bind. destruct (batch E args sb rows w1) as [[x|[]] w2]; reflexivity.
Qed.

(** X1.  A table without a [name] column ends the run with [SystemExit]
    and its message, and a file without any record with the [TypeError]
    of [in None]; in both cases nothing was printed, requested or
    written. *)
Theorem no_name_column_exits E args fs :
  mkdir E (Args.out args) = None → new_client E = None →
  (∀ fieldnames rest,
     csv_records E (Args.csv args) = inr (fieldnames :: rest) →
     name_key ∉ fieldnames →
     run E args fs =
       (inl (SystemExit (Py.lit "CSV must have a header column named 'name'")),
        start fs))
  ∧ (csv_records E (Args.csv args) = inr [] →
     run E args fs =
       (throw TypeError "argument of type 'NoneType' is not iterable", start fs)).
Proof.
  intros Hd Hc. split.
  - intros fieldnames rest Hr Hn. unfold run, main.
    rewrite Hd, Hc, Hr. cbn [raise_if of_sum].
    do 3 (rewrite run_bind, run_ret; cbv beta iota).
    rewrite run_bind. unfold lift at 1.
    unfold load_rows. rewrite bool_decide_eq_false_2 by exact Hn. reflexivity.
  - intros Hr. unfold run, main.
    rewrite Hd, Hc, Hr. reflexivity.
Qed.

Lemma no_name_column_exits_witness :
  run (with_table [[Py.lit "id"; Py.lit "actor"]; [Py.lit "1"; Py.lit "Jane Doe"]])
      args0 ∅
  = (inl (SystemExit (Py.lit "CSV must have a header column named 'name'")),
     start ∅).
Proof.
  apply (proj1 (no_name_column_exits
                  (with_table [[Py.lit "id"; Py.lit "actor"];
                               [Py.lit "1"; Py.lit "Jane Doe"]])
                  args0 ∅ eq_refl eq_refl)
           [Py.lit "id"; Py.lit "actor"] [[Py.lit "1"; Py.lit "Jane Doe"]] eq_refl).
  vm_compute. intros H. repeat (inversion H as [|? ? ? H']; clear H; rename H' into H).
Defined.

Lemma load_style_none E args w :
  Py.truthy (default [] (Args.style args)) = false →
  load_style E args w =
  (inr None, log (Print (ModeTextOnly (quality_name (Args.quality args)))) w).
Proof.
  intros Hs. unfold load_style.
  destruct (Args.style args) as [[|c p]|]; try discriminate Hs; reflexivity.
Qed.

Lemma load_style_read E args p w :
  Args.style args = Some p → p ≠ [] →
  load_style E args w =
  match read_binary E p with
  | inl e => (inl (Exn e), w)
  | inr style_bytes => (inr (Some style_bytes), log (Print ModeStyleRef) w)
  end.
Proof.
  intros Hs Hp. unfold load_style. rewrite Hs.
  destruct p as [|c p]; [done|].
  rewrite run_bind. destruct (read_binary E (c :: p)); reflexivity.
Qed.

(** X2.  When the output directory cannot be made, the client cannot be
    built, the table cannot be read or the style file cannot be read, the
    run ends with that exception, and nothing was printed, requested or
    written: the steps before the loop come in this order and the mode
    line comes after all of them. *)
Theorem startup_failure_leaves_no_trace E args fs :
  (∀ e, mkdir E (Args.out args) = Some e →
        run E args fs = (inl (Exn e), start fs))
  ∧ (∀ e, mkdir E (Args.out args) = None → new_client E = Some e →
          run E args fs = (inl (Exn e), start fs))
  ∧ (∀ e, mkdir E (Args.out args) = None → new_client E = None →
          csv_records E (Args.csv args) = inl e →
          run E args fs = (inl (Exn e), start fs))
  ∧ (∀ e records rows p,
       mkdir E (Args.out args) = None → new_client E = None →
       csv_records E (Args.csv args) = inr records →
       load_rows records = inr rows →
       Args.style args = Some p → p ≠ [] → read_binary E p = inl e →
       run E args fs = (inl (Exn e), start fs)).
Proof.
  split; [|split; [|split]].
  - intros e Hd. unfold run, main. rewrite Hd. reflexivity.
  - intros e Hd Hc. unfold run, main. rewrite Hd, Hc. reflexivity.
  - intros e Hd Hc Hr. unfold run, main. rewrite Hd, Hc, Hr. reflexivity.
  - intros e records rows p Hd Hc Hr Hl Hs Hp Hb. unfold run.
    rewrite (main_loaded _ _ records rows) by assumption.
    rewrite (load_style_read _ _ p) by assumption. rewrite Hb. reflexivity.
Qed.

Lemma startup_failure_leaves_no_trace_witness :
  run env_no_dir args0 ∅
  = (inl (Exn (Exc OSError (Py.lit "Permission denied"))), start ∅).
Proof.
  apply (proj1 (startup_failure_leaves_no_trace env_no_dir args0 ∅)).
  reflexivity.
Defined.

(* ===================================================================== *)
(** * The whole run *)
(* ===================================================================== *)

Lemma inner_no_marks evs :
  forallb inner evs = true → progress_marks evs = [] ∧ sleeps evs = [].
Proof.
  induction evs as [|[[]| | | |] evs IH]; cbn; try discriminate; auto.
Qed.

Lemma progress_marks_app a b :
  progress_marks (a ++ b) = progress_marks a ++ progress_marks b.
Proof. apply omap_app. Qed.

(** With a sleep that returns, the loop numbers its subjects from [i] on
    and sleeps once for each. *)
Lemma loop_marks E args style_bytes total rows :
  time_sleep E (Args.sleep args) = None → Forall named rows →
  ∀ i w,
    ∃ evs, trace (for_enumerate (iteration E args style_bytes total) i rows w).2
           = trace w ++ evs
           ∧ progress_marks evs = (λ k, (k, total)) <$> seq i (length rows)
           ∧ sleeps evs = replicate (length rows) (Args.sleep args).
Proof.
  intros Hsleep. induction 1 as [|row rows [n Hn] _ IH]; intros i w.
  - exists []. cbn. rewrite app_nil_r. auto.
  - rewrite for_enumerate_cons, (iteration_run _ _ _ _ _ _ n) by exact Hn.
    set (w0 := log _ w).
    destruct (guarded_trace E args style_bytes n w0) as (evs & Ht & Hin).
    pose proof (guarded_run E args style_bytes n w0) as Hg.
    rewrite Hsleep in Hg.
    destruct (guarded E args style_bytes n w0) as [r w1].
    destruct (attempt E args style_bytes _ _ w0) as [r0 w0'].
    injection Hg as -> _. cbn in Ht.
    destruct (IH (S i) w1) as (evs' & Ht' & Hm & Hs).
    destruct (inner_no_marks evs Hin) as [Hm0 Hs0].
    exists ([Print (Progress i total n (out_path_of args n))] ++ evs
            ++ [Sleep (Args.sleep args)] ++ evs').
    split; [rewrite Ht', Ht; cbn; rewrite <- !app_assoc; reflexivity|].
    rewrite !progress_marks_app, !sleeps_app, Hm, Hs, Hm0, Hs0. split; reflexivity.
Qed.

(** X3.  The loop numbers the subjects 1, 2, ..., n, each progress line
    carrying the size n of the batch, and calls the sleep once per
    subject, whatever the provider and the file system do (for a sleep
    that returns). *)
Theorem progress_is_numbered E args style_bytes records rows w :
  load_rows records = inr rows →
  time_sleep E (Args.sleep args) = None →
  ∃ evs, trace (batch E args style_bytes rows w).2 = trace w ++ evs
         ∧ progress_marks evs
           = (λ k, (k, length rows)) <$> seq 1 (length rows)
         ∧ sleeps evs = replicate (length rows) (Args.sleep args).
Proof.
  intros Hl Hsleep.
  apply (loop_marks E args style_bytes (length rows) rows Hsleep
           (load_rows_named _ _ Hl) 1 w).
Qed.

Lemma progress_is_numbered_witness :
  ∃ evs, trace (batch env_down args0 None rows0 world0).2 = trace world0 ++ evs
         ∧ progress_marks evs = [(1, 2); (2, 2)]
         ∧ sleeps evs = [0.5%float; 0.5%float].
Proof.
  exact (progress_is_numbered env_down args0 None table0 rows0 world0
           load_table0 eq_refl).
Defined.

(** X4.  When the directory, the client, the table and the style file
    are there and the sleep returns, the run returns normally whatever
    the provider and the file system do to the subjects: every subject
    was begun, and the closing line is the last thing printed. *)
Theorem run_ends_with_done E args fs records rows :
  mkdir E (Args.out args) = None → new_client E = None →
  csv_records E (Args.csv args) = inr records →
  load_rows records = inr rows →
  (∀ p, Args.style args = Some p → p ≠ [] → ∃ b, read_binary E p = inr b) →
  time_sleep E (Args.sleep args) = None →
  (run E args fs).1 = inr tt
  ∧ last (trace (run E args fs).2) = Some (Print (DoneLine (Args.out args)))
  ∧ attempted (trace (run E args fs).2) = subject_names rows.
Proof.
  intros Hd Hc Hr Hl Hstyle Hsleep.
  change (run E args fs) with (main E args (start fs)).
  rewrite (main_loaded _ _ records rows) by assumption.
  assert (Hls : ∃ sb l, load_style E args (start fs) = (inr sb, log (Print l) (start fs))
                        ∧ attempted [Print l] = []).
  { destruct (Args.style args) as [[|c p]|] eqn:Hs.
    - eexists _, _. rewrite load_style_none by (rewrite Hs; reflexivity). eauto.
    - destruct (Hstyle (c :: p) eq_refl ltac:(done)) as [b Hb].
      eexists _, _. rewrite (load_style_read _ _ (c :: p)), Hb by done. eauto.
    - eexists _, _. rewrite load_style_none by (rewrite Hs; reflexivity). eauto. }
  destruct Hls as (sb & l & -> & Hl0).
  destruct (loop_attempts_all E args sb (length rows) rows Hsleep
              (load_rows_named _ _ Hl) 1 (log (Print l) (start fs)))
    as (Hres & evs & Ht & Ha).
  fold (batch E args sb rows) in Hres, Ht.
  destruct (batch E args sb rows _) as [[x|[]] w2]; [discriminate Hres|].
  cbn [fst snd log trace start] in Ht |- *.
  split; [reflexivity|]. split; [apply last_snoc|].
  rewrite Ht. rewrite !attempted_app, Ha, Hl0. apply app_nil_r.
Qed.

Lemma run_ends_with_done_witness :
  (run env_down args0 ∅).1 = inr tt
  ∧ last (trace (run env_down args0 ∅).2) = Some (Print (DoneLine (Py.lit "out")))
  ∧ attempted (trace (run env_down args0 ∅).2) = subject_names rows0.
Proof.
  apply (run_ends_with_done env_down args0 ∅ table0 rows0);
    [reflexivity|reflexivity|reflexivity|exact load_table0| |reflexivity].
  intros p Hp. discriminate Hp.
Defined.

(** X5.  The sleep sits in the [finally] block, outside the [except]:
    when [time.sleep] raises (as it does on a negative delay), the loop
    ends after the first subject with that exception, and no later
    subject is begun. *)
Theorem failing_sleep_ends_batch E args style_bytes row rows person_name e w :
  person_name_of row = inr person_name →
  time_sleep E (Args.sleep args) = Some e →
  (batch E args style_bytes (row :: rows) w).1 = inl (Exn e)
  ∧ ∃ evs, trace (batch E args style_bytes (row :: rows) w).2 = trace w ++ evs
           ∧ attempted evs = [person_name]
           ∧ last evs = Some (Sleep (Args.sleep args)).
Proof.
  intros Hn Hsleep. unfold batch.
  rewrite for_enumerate_cons, (iteration_run _ _ _ _ _ _ person_name) by exact Hn.
  set (w0 := log _ w).
  destruct (guarded_trace E args style_bytes person_name w0) as (evs & Ht & Hin).
  pose proof (guarded_run E args style_bytes person_name w0) as Hg.
  rewrite Hsleep in Hg.
  destruct (guarded E args style_bytes person_name w0) as [r w1].
  destruct (attempt E args style_bytes _ _ w0) as [r0 w0'].
  injection Hg as -> _. cbn in Ht |- *. split; [reflexivity|].
  exists ([Print (Progress 1 (length (row :: rows)) person_name
                   (out_path_of args person_name))]
          ++ evs ++ [Sleep (Args.sleep args)]).
  split; [rewrite Ht; rewrite <- !app_assoc; reflexivity|].
  split.
  - rewrite !attempted_app, (inner_not_attempted evs Hin). reflexivity.
  - rewrite !app_assoc. apply last_snoc.
Qed.

Lemma failing_sleep_ends_batch_witness :
  (batch env_bad_sleep args0 None rows0 world0).1
  = inl (Exn (Exc ValueError (Py.lit "sleep length must be non-negative"))).
Proof.
  apply (proj1 (failing_sleep_ends_batch env_bad_sleep args0 None
                  (dict_of_record [Py.lit "name"] [Py.lit "Jane Doe"])
                  [dict_of_record [Py.lit "name"] [Py.lit " Bob "]]
                  (Py.lit "Jane Doe") _ world0 ltac:(vm_compute; reflexivity) eq_refl)).
Defined.

(* ===================================================================== *)
(** * The names of the subjects *)
(* ===================================================================== *)

Lemma last_rev {A} (l : list A) : last (rev l) = head l.
Proof. destruct l as [|a l]; [reflexivity|]. cbn [rev]. apply last_snoc. Qed.

Lemma head_rev {A} (l : list A) : head (rev l) = last l.
Proof. rewrite <- (rev_involutive l) at 2. symmetry. apply last_rev. Qed.

Lemma lstrip_head s c : head (Py.lstrip s) = Some c → Py.isspace c = false.
Proof.
  induction s as [|a s IH]; [discriminate|].
  cbn [Py.lstrip]. destruct (Py.isspace a) eqn:Ha; [exact IH|].
  intros [= <-]. exact Ha.
Qed.

Lemma lstrip_suffix s : ∃ k, s = k ++ Py.lstrip s.
Proof.
  induction s as [|a s [k IH]]; [exists []; reflexivity|].
  cbn [Py.lstrip]. destruct (Py.isspace a).
  - exists (a :: k). cbn. rewrite <- IH. reflexivity.
  - exists []. reflexivity.
Qed.

Lemma lstrip_last s c : last (Py.lstrip s) = Some c → last s = Some c.
Proof.
  intros Hl. destruct (lstrip_suffix s) as [k Hk].
  rewrite Hk, last_app, Hl. reflexivity.
Qed.

Lemma lstrip_id s :
  (∀ c, head s = Some c → Py.isspace c = false) → Py.lstrip s = s.
Proof.
  destruct s as [|a s]; [reflexivity|]. intros H.
  cbn [Py.lstrip]. rewrite (H a eq_refl). reflexivity.
Qed.

(** What [strip] returns has no whitespace at either end, and stripping
    it again changes nothing. *)
Lemma strip_trimmed s : trimmed (Py.strip s) ∧ Py.strip (Py.strip s) = Py.strip s.
Proof.
  assert (Ht : trimmed (Py.strip s)).
  { unfold Py.strip, Py.rstrip. split; intros c.
    - rewrite head_rev. intros Hl. apply lstrip_last in Hl.
      rewrite last_rev in Hl. exact (lstrip_head _ _ Hl).
    - rewrite last_rev. apply lstrip_head. }
  split; [exact Ht|]. destruct Ht as [Hh Hl].
  unfold Py.strip at 1. rewrite (lstrip_id _ Hh).
  unfold Py.rstrip. rewrite lstrip_id, rev_involutive; [reflexivity|].
  intros c. rewrite head_rev. apply Hl.
Qed.

Lemma comprehension_names rows0 rows :
  comprehension rows0 = inr rows →
  Forall (λ n, ∃ s, n = Py.strip s ∧ n ≠ []) (subject_names rows).
Proof.
  revert rows. induction rows0 as [|r rows0 IH]; intros rows.
  - intros [= <-]. constructor.
  - rewrite comprehension_cons. destruct (keep_row r) as [x|b] eqn:Hk; [discriminate|].
    destruct (comprehension rows0) as [x|l]; [discriminate|].
    intros [= <-]. destruct b; [|auto].
    destruct (keep_row_named r Hk) as (s & Hs & Hne).
    assert (Hn : person_name_of r = inr (Py.strip s))
      by (unfold person_name_of, getitem; rewrite Hs; reflexivity).
    rewrite (subject_names_cons _ _ _ Hn). constructor; eauto.
Qed.

(** X6.  Every subject of a batch has a name that is not empty, has no
    whitespace at either end, and is left as it is by another [strip]:
    the name the loop computes at line 77 is the string the filter at
    line 65 tested. *)
Theorem subject_names_are_trimmed records rows :
  load_rows records = inr rows →
  Forall (λ n, n ≠ [] ∧ trimmed n ∧ Py.strip n = n) (subject_names rows).
Proof.
  unfold load_rows. destruct records as [|fieldnames rest]; [discriminate|].
  case_bool_decide; [|discriminate]. intros Hc.
  apply comprehension_names in Hc.
  eapply Forall_impl; [exact Hc|].
  intros n (s & -> & Hne). destruct (strip_trimmed s) as [Ht Hi]. auto.
Qed.

Lemma subject_names_are_trimmed_witness :
  Forall (λ n, n ≠ [] ∧ trimmed n ∧ Py.strip n = n) (subject_names rows0).
Proof. exact (subject_names_are_trimmed table0 rows0 load_table0). Defined.

Lemma zipped_lookup_notin (kvs : list (Py.str * Py.str)) (d : dict) k :
  k ∉ kvs.*1 →
  foldl (λ (d : dict) kv, <[Some kv.1 := VStr kv.2]> d) d kvs !! Some k
  = d !! Some k.
Proof.
  revert d. induction kvs as [|[k' v'] kvs IH]; intros d Hk; [reflexivity|].
  cbn in Hk |- *. apply not_elem_of_cons in Hk as [Hne Hk].
  rewrite IH by exact Hk. apply lookup_insert_ne. congruence.
Qed.

(** A column of a complete record.  With a repeated column name the last
    column of that name counts. *)
Lemma dict_of_record_column pre k post record :
  k ∉ post → length (pre ++ k :: post) ≤ length record →
  ∃ v, record !! length pre = Some v
       ∧ dict_of_record (pre ++ k :: post) record !! Some k = Some (VStr v).
Proof.
  intros Hk Hlen. rewrite length_app in Hlen. cbn in Hlen.
  destruct (lookup_lt_is_Some_2 record (length pre)) as [v Hv]; [lia|].
  exists v. split; [exact Hv|].
  apply list_elem_of_split_length in Hv as (r1 & r2 & -> & Hr1).
  unfold dict_of_record.
  assert (Hz : zip (pre ++ k :: post) (r1 ++ v :: r2)
               = zip pre r1 ++ (k, v) :: zip post r2)
    by (rewrite zip_with_app by exact Hr1; reflexivity).
  assert (Hlook : foldl (λ (d : dict) kv, <[Some kv.1 := VStr kv.2]> d) ∅
                    (zip (pre ++ k :: post) (r1 ++ v :: r2)) !! Some k
                  = Some (VStr v)).
  { rewrite Hz, foldl_app. cbn [foldl].
    rewrite zipped_lookup_notin; [apply lookup_insert_eq|].
    intros Hin. apply Hk.
    apply list_elem_of_fmap in Hin as ([k' v'] & -> & Hin).
    apply elem_of_zip_l in Hin. exact Hin. }
  destruct (Nat.ltb_spec (length (pre ++ k :: post)) (length (r1 ++ v :: r2))).
  - rewrite lookup_insert_ne by discriminate. exact Hlook.
  - destruct (Nat.ltb_spec (length (r1 ++ v :: r2)) (length (pre ++ k :: post)));
      [|exact Hlook].
    rewrite !length_app in *. cbn in *. lia.
Qed.

Lemma filter_cons {A} (f : A → bool) x l :
  List.filter f (x :: l) = if f x then x :: List.filter f l else List.filter f l.
Proof. reflexivity. Qed.

(** X7.  On a table whose header has a [name] column and whose records
    are blank lines or have a field for every column, the run gets its
    batch, and the names of its subjects are the entries of the name
    column, stripped, without the blank ones, in the order of the file.
    Surplus fields of a record are ignored. *)
Theorem batch_is_name_column pre post rest :
  name_key ∉ post →
  Forall (complete (pre ++ name_key :: post)) rest →
  ∃ rows,
    load_rows ((pre ++ name_key :: post) :: rest) = inr rows
    ∧ subject_names rows
      = List.filter Py.truthy
          (Py.strip <$> omap (λ record, record !! length pre) rest).
Proof.
  intros Hk Hall. eexists. split.
  - apply load_rows_complete; [|exact Hall].
    apply elem_of_app. right. left.
  - unfold dict_rows. induction Hall as [|record rest Hc _ IH]; [reflexivity|].
    destruct record as [|f record].
    + cbn [List.filter Py.truthy]. exact IH.
    + destruct Hc as [Hc|Hc]; [discriminate Hc|].
      destruct (dict_of_record_column pre name_key post (f :: record) Hk Hc)
        as (v & Hv & Hd).
      rewrite filter_cons. cbn [Py.truthy]. rewrite fmap_cons, filter_cons.
      assert (Hn : person_name_of (dict_of_record (pre ++ name_key :: post)
                                     (f :: record)) = inr (Py.strip v))
        by (unfold person_name_of, getitem; rewrite Hd; reflexivity).
      assert (Hh : has_name (dict_of_record (pre ++ name_key :: post) (f :: record))
                   = Py.truthy (Py.strip v))
        by (unfold has_name; rewrite Hd; reflexivity).
      rewrite Hh.
      change (omap ?g ((f :: record) :: rest))
        with (match g (f :: record) with
              | Some y => y :: omap g rest
              | None => omap g rest
              end).
      cbv beta. rewrite Hv, fmap_cons, filter_cons.
      destruct (Py.truthy (Py.strip v)); [|exact IH].
      rewrite (subject_names_cons _ _ _ Hn), IH. reflexivity.
Qed.

Lemma batch_is_name_column_witness :
  ∃ rows,
    load_rows ([Py.lit "id"; Py.lit "name"]
               :: [[Py.lit "1"; Py.lit " Jane Doe "; Py.lit "extra"]; [];
                   [Py.lit "2"; Py.lit "  "]; [Py.lit "3"; Py.lit "Bob"]])
    = inr rows
    ∧ subject_names rows = [Py.lit "Jane Doe"; Py.lit "Bob"].
Proof.
  apply (batch_is_name_column [Py.lit "id"] []
           [[Py.lit "1"; Py.lit " Jane Doe "; Py.lit "extra"]; [];
            [Py.lit "2"; Py.lit "  "]; [Py.lit "3"; Py.lit "Bob"]]).
  - apply not_elem_of_nil.
  - repeat constructor; first [left; reflexivity | right; cbn; lia].
Defined.

(* ===================================================================== *)
(** * The files a run opens *)
(* ===================================================================== *)

Lemma touched_chunk l evs d :
  touched (Print l :: evs ++ [Sleep d]) = touched evs.
Proof.
  change (touched ([Print l] ++ evs ++ [Sleep d]) = touched evs).
  rewrite !touched_app. cbn. apply app_nil_r.
Qed.

Lemma chunks_touched args names chunks :
  Forall2 (subject_chunk args) names chunks →
  Forall (λ p, ∃ n, n ∈ names ∧ p = out_path_of args n)
         (touched (concat chunks)).
Proof.
  induction 1 as [|n chunk names chunks (i & total & evs & -> & _ & _ & Hq & _) _ IH];
    [constructor|].
  cbn [concat]. rewrite touched_app, touched_chunk. apply Forall_app. split.
  - eapply Forall_impl; [exact Hq|]. intros p ->.
    exists n. split; [apply elem_of_cons; auto|reflexivity].
  - eapply Forall_impl; [exact IH|]. intros p (n' & Hn' & ->).
    exists n'. split; [apply elem_of_cons; auto|reflexivity].
Qed.

Lemma batch_touched E args style_bytes rows w :
  ∃ evs,
    trace (batch E args style_bytes rows w).2 = trace w ++ evs
    ∧ Forall (λ p, ∃ n, n ∈ subject_names rows ∧ p = out_path_of args n)
             (touched evs).
Proof.
  destruct (loop_chunks E args style_bytes (length rows) rows 1 w)
    as (chunks & Ht & Hall & _).
  exists (concat chunks). split; [exact Ht|].
  eapply Forall_impl; [apply (chunks_touched _ _ _ Hall)|].
  intros p (n & Hn & ->). exists n. split; [|reflexivity].
  exact (subseteq_take _ _ _ Hn).
Qed.

(** X8.  Every path the loop opens for writing or writes to is the output
    path expression of one of the subjects of its batch; and so is every
    path a whole run opens or writes to, for the subjects of the table it
    loaded: nothing before or after the loop opens a file for writing. *)
Theorem only_output_paths_are_opened E args :
  (∀ style_bytes rows w,
     ∃ evs,
       trace (batch E args style_bytes rows w).2 = trace w ++ evs
       ∧ Forall (λ p, ∃ n, n ∈ subject_names rows ∧ p = out_path_of args n)
                (touched evs))
  ∧ (∀ fs records rows,
       csv_records E (Args.csv args) = inr records →
       load_rows records = inr rows →
       Forall (λ p, ∃ n, n ∈ subject_names rows ∧ p = out_path_of args n)
              (touched (trace (run E args fs).2))).
Proof.
  split; [intros; apply batch_touched|].
  intros fs records rows Hr Hl.
  change (run E args fs) with (main E args (start fs)).
  destruct (mkdir E (Args.out args)) as [e|] eqn:Hd.
  { unfold main. rewrite Hd. cbn. constructor. }
  destruct (new_client E) as [e|] eqn:Hc.
  { unfold main. rewrite Hd, Hc. cbn. constructor. }
  rewrite (main_loaded E args records rows) by assumption.
  assert (Hs : (∃ x, load_style E args (start fs) = (inl x, start fs))
               ∨ ∃ sb m, load_style E args (start fs)
                         = (inr sb, log (Print m) (start fs))).
  { unfold load_style.
    destruct (Args.style args) as [[|c p]|]; [right; eauto| |right; eauto].
    rewrite run_bind. destruct (read_binary E (c :: p)); [left|right]; eauto. }
  destruct Hs as [[x Hs]|(sb & m & Hs)]; [rewrite Hs; cbn; constructor|].
  rewrite Hs.
  destruct (batch_touched E args sb rows (log (Print m) (start fs)))
    as (evs & Ht & Hp).
  destruct (batch E args sb rows (log (Print m) (start fs))) as [[x|[]] w2];
    cbn [snd trace log] in *; rewrite Ht; cbn [start trace];
    rewrite ?touched_app; cbn; rewrite ?app_nil_r; exact Hp.
Qed.

(** X8 on the two subjects of [table0]: each of the two output paths is
    opened and written once, and nothing else. *)
Lemma only_output_paths_are_opened_witness :
  touched (trace (run env0 args0 ∅).2)
  = [out_path_of args0 (Py.lit "Jane Doe"); out_path_of args0 (Py.lit "Jane Doe");
     out_path_of args0 (Py.lit "Bob"); out_path_of args0 (Py.lit "Bob")]
  ∧ Forall (λ p, ∃ n, n ∈ subject_names rows0 ∧ p = out_path_of args0 n)
           (touched (trace (run env0 args0 ∅).2)).
Proof.
  split; [vm_compute; reflexivity|].
  exact (proj2 (only_output_paths_are_opened env0 args0) ∅ table0 rows0
           eq_refl load_table0).
Defined.

(* ===================================================================== *)
(** * The text joined to the output directory *)
(* ===================================================================== *)

(** X10.  The text that line 79 joins to the output directory (the name
    with its spaces replaced, a dot, the format) contains no space, is as
    long as the name, the dot and the format together, and keeps every
    character of the name that is not a space: only spaces are replaced
    and nothing is removed, so a path separator in a name is in the text.
    (What pathlib makes of such a text is not modelled.) *)
Theorem joined_text_has_no_space args person_name :
  let text := (out_path_of args person_name).2 in
  text = Py.replace space underscore person_name ++ Py.lit "."
         ++ format_name (Args.format args)
  ∧ (space ∉ text)
  ∧ (length text
     = length person_name + 1 + length (format_name (Args.format args)))
  ∧ (∀ c, c ≠ space → c ∈ person_name → c ∈ text).
Proof.
  cbn zeta. unfold out_path_of, output_format. rewrite lower_format_name. cbn [snd].
  split; [reflexivity|]. split; [|split].
  - assert (Hdot : space ∉ Py.lit ".") by compute_done.
    assert (Hfmt : space ∉ format_name (Args.format args))
      by (destruct (Args.format args); compute_done).
    intros Hin. apply elem_of_app in Hin as [Hin|Hin].
    + unfold Py.replace in Hin. apply list_elem_of_fmap in Hin as (c & Hc & _).
      destruct (N.eqb_spec c 32); [discriminate Hc|congruence].
    + apply elem_of_app in Hin as [Hin|Hin]; auto.
  - rewrite !length_app. unfold Py.replace. rewrite length_fmap. cbn. lia.
  - intros c Hc Hin. apply elem_of_app. left. unfold Py.replace.
    apply list_elem_of_fmap. exists c. split; [|exact Hin].
    destruct (N.eqb_spec c 32); [contradiction|reflexivity].
Qed.

(* ===================================================================== *)
(** * The requests of a subject *)
(* ===================================================================== *)

(** After the request of a subject no further request is issued: what
    follows is the open, the write, the error line and the sleep. *)
Lemma guarded_after_request E args style_bytes person_name w :
  ∃ evs,
    trace (guarded E args style_bytes person_name w).2
    = trace (request_image E args style_bytes (make_prompt person_name) w).2 ++ evs
    ∧ requests evs = [].
Proof.
  rewrite guarded_run, attempt_run.
  destruct (request_image E args style_bytes (make_prompt person_name) w)
    as [[[e|msg]|resp] w1]; cbn [fst snd trace log].
  - eexists. rewrite <- app_assoc. split; reflexivity.
  - eexists. split; reflexivity.
  - destruct (first_b64 resp) as [[e|msg]|b64]; cbn [fst snd trace log].
    + eexists. rewrite <- app_assoc. split; reflexivity.
    + eexists. split; reflexivity.
    + destruct (open_wb E (trace w1) _) as [e|]; cbn [fst snd trace log].
      * eexists. rewrite <- !app_assoc. split; reflexivity.
      * destruct (Base64.b64decode b64) as [[e|msg]|content];
          cbn [fst snd trace log store].
        -- eexists. rewrite <- !app_assoc. split; reflexivity.
        -- eexists. rewrite <- !app_assoc. split; reflexivity.
        -- destruct (write_close E _ _ content) as [[k e]|];
             cbn [fst snd trace log store];
             eexists; rewrite <- !app_assoc; split; reflexivity.
Qed.

Lemma style_mode_one_request_aux E args p b bs person_name w :
  Args.style args = Some p →
  ∃ evs,
    trace (guarded E args (Some (b :: bs)) person_name w).2 = trace w ++ evs
    ∧ requests evs
      = [Edit (edit_for E args p (b :: bs) (make_prompt person_name))].
Proof.
  intros Hs.
  destruct (guarded_after_request E args (Some (b :: bs)) person_name w)
    as (evs & Ht & Hr).
  rewrite (request_image_edit E args b bs _ (path_name E p)) in Ht
    by (unfold style_name; rewrite Hs; reflexivity).
  cbn [snd trace log] in Ht. eexists. rewrite Ht, <- app_assoc.
  split; [reflexivity|]. rewrite requests_app, Hr. reflexivity.
Qed.

(** X11.  In style mode a subject issues exactly one request, whatever
    the provider answers or raises (a [TypeError] included: there is no
    fallback in this mode): the edit request with the reference bytes,
    the file name of the style path, the subject's prompt, the size and
    the format. *)
Theorem style_mode_one_request E args p b bs person_name w :
  Args.style args = Some p →
  ∃ evs,
    trace (guarded E args (Some (b :: bs)) person_name w).2 = trace w ++ evs
    ∧ requests evs
      = [Edit (edit_for E args p (b :: bs) (make_prompt person_name))].
Proof. apply style_mode_one_request_aux. Qed.

Lemma style_mode_one_request_witness :
  ∃ evs,
    trace (guarded env_down args_style (Some ["P"]%byte) jane world0).2
    = trace world0 ++ evs
    ∧ requests evs
      = [Edit (edit_for env_down args_style (Py.lit "ref.png") ["P"]%byte
                 (make_prompt jane))].
Proof.
  exact (style_mode_one_request env_down args_style (Py.lit "ref.png")
           "P"%byte [] jane world0 eq_refl).
Defined.

(** X12.  In text-only mode a subject issues exactly one request unless
    the first call itself raises a [TypeError], and then exactly two.  A
    [TypeError] raised later in the [try] (a response without [data], a
    payload that is [None]) brings no second request. *)
Theorem text_mode_requests E args style_bytes person_name w :
  Py.truthy (default [] style_bytes) = false →
  let g := primary args (make_prompt person_name) in
  ((∀ e, images_generate E (trace w) g = inl e → is_TypeError e = false) →
   ∃ evs,
     trace (guarded E args style_bytes person_name w).2 = trace w ++ evs
     ∧ requests evs = [Generate g])
  ∧ (∀ e, images_generate E (trace w) g = inl e → is_TypeError e = true →
     ∃ evs,
       trace (guarded E args style_bytes person_name w).2 = trace w ++ evs
       ∧ requests evs = [Generate g; Generate (without_quality g)]).
Proof.
  intros Hs. cbn zeta.
  destruct (guarded_after_request E args style_bytes person_name w)
    as (evs & Ht & Hr).
  rewrite (request_image_generate E args style_bytes _ w Hs) in Ht.
  cbn zeta in Ht. split.
  - intros Hne.
    destruct (images_generate E (trace w) _) as [e|resp].
    + rewrite (Hne e eq_refl) in Ht. cbn [snd trace log] in Ht.
      eexists. rewrite Ht, <- app_assoc. split; [reflexivity|].
      rewrite requests_app, Hr. reflexivity.
    + cbn [snd trace log] in Ht.
      eexists. rewrite Ht, <- app_assoc. split; [reflexivity|].
      rewrite requests_app, Hr. reflexivity.
  - intros e He Hty. rewrite He, Hty in Ht. cbn [snd trace log] in Ht.
    eexists. rewrite Ht, <- !app_assoc. split; [reflexivity|].
    rewrite !requests_app, Hr. reflexivity.
Qed.

(** X12 on the provider that answers without payload: [b64decode(None)]
    raises a [TypeError], and the request stays the only one. *)
Lemma text_mode_requests_witness :
  ∃ evs,
    trace (guarded env_no_payload args0 None jane world0).2 = trace world0 ++ evs
    ∧ requests evs = [Generate (primary args0 (make_prompt jane))].
Proof.
  apply (proj1 (text_mode_requests env_no_payload args0 None jane world0 eq_refl)).
  intros e He. discriminate He.
Defined.

(** Per-subject bounds on the number of requests carry over to the loop. *)
Lemma loop_request_count E args style_bytes total lo hi rows :
  time_sleep E (Args.sleep args) = None → Forall named rows →
  (∀ n w, ∃ evs, trace (guarded E args style_bytes n w).2 = trace w ++ evs
                 ∧ lo ≤ length (requests evs) ≤ hi) →
  ∀ i w,
    ∃ evs, trace (for_enumerate (iteration E args style_bytes total) i rows w).2
           = trace w ++ evs
           ∧ lo * length rows ≤ length (requests evs) ≤ hi * length rows.
Proof.
  intros Hsleep Hnamed Hone.
  induction Hnamed as [|row rows [n Hn] _ IH]; intros i w.
  - exists []. cbn. rewrite app_nil_r. split; [reflexivity|lia].
  - rewrite for_enumerate_cons, (iteration_run _ _ _ _ _ _ n) by exact Hn.
    set (w0 := log _ w).
    destruct (Hone n w0) as (evs & Ht & Hb).
    pose proof (guarded_run E args style_bytes n w0) as Hg.
    rewrite Hsleep in Hg.
    destruct (guarded E args style_bytes n w0) as [r w1].
    destruct (attempt E args style_bytes _ _ w0) as [r0 w0'].
    injection Hg as -> _. cbn [snd] in Ht.
    destruct (IH (S i) w1) as (evs' & Ht' & Hb').
    exists ([Print (Progress i total n (out_path_of args n))] ++ evs ++ evs').
    split; [rewrite Ht', Ht; cbn [trace log w0]; rewrite <- !app_assoc; reflexivity|].
    rewrite !requests_app, !length_app. cbn [length requests]. 
    change (length (requests [Print (Progress i total n (out_path_of args n))]))
      with 0. lia.
Qed.

(** X13.  A batch of n subjects costs exactly n requests in style mode,
    and between n and 2n requests in text-only mode, whatever the
    provider answers (for a sleep that returns). *)
Theorem batch_request_count E args style_bytes records rows w :
  load_rows records = inr rows →
  time_sleep E (Args.sleep args) = None →
  ∃ evs,
    trace (batch E args style_bytes rows w).2 = trace w ++ evs
    ∧ (Py.truthy (default [] style_bytes) = false →
       length rows ≤ length (requests evs) ≤ 2 * length rows)
    ∧ (Py.truthy (default [] style_bytes) = true →
       is_Some (Args.style args) →
       length (requests evs) = length rows).
Proof.
  intros Hl Hsleep. pose proof (load_rows_named _ _ Hl) as Hnamed.
  destruct style_bytes as [[|b bs]|].
  - destruct (loop_request_count E args (Some []) (length rows) 1 2 rows
                Hsleep Hnamed) with (i := 1) (w := w) as (evs & Ht & Hb).
    { intros n w0.
      destruct (guarded_after_request E args (Some []) n w0) as (evs & Ht & Hr).
      rewrite (request_image_generate E args (Some []) _ w0 eq_refl) in Ht.
      cbn zeta in Ht.
      destruct (images_generate E (trace w0) _) as [e|resp];
        [destruct (is_TypeError e)|]; cbn [snd trace log] in Ht;
        eexists; rewrite Ht, <- ?app_assoc;
        (split; [reflexivity|]); rewrite !requests_app, Hr; cbn; lia. }
    exists evs. split; [exact Ht|]. split; [intros _; lia|discriminate].
  - destruct (Args.style args) as [p|] eqn:Hs.
    + destruct (loop_request_count E args (Some (b :: bs)) (length rows) 1 1 rows
                  Hsleep Hnamed) with (i := 1) (w := w) as (evs & Ht & Hb).
      { intros n w0.
        destruct (style_mode_one_request_aux E args p b bs n w0 Hs)
          as (evs & Ht & Hr).
        exists evs. rewrite Hr. split; [exact Ht|cbn; lia]. }
      exists evs. split; [exact Ht|]. split; [discriminate|intros _ _; lia].
    + destruct (batch_extends E args (Some (b :: bs)) rows w) as (evs & Ht & _).
      exists evs. split; [exact Ht|]. split; [discriminate|].
      intros _ [p Hp]. discriminate Hp.
  - destruct (loop_request_count E args None (length rows) 1 2 rows
                Hsleep Hnamed) with (i := 1) (w := w) as (evs & Ht & Hb).
    { intros n w0.
      destruct (guarded_after_request E args None n w0) as (evs & Ht & Hr).
      rewrite (request_image_generate E args None _ w0 eq_refl) in Ht.
      cbn zeta in Ht.
      destruct (images_generate E (trace w0) _) as [e|resp];
        [destruct (is_TypeError e)|]; cbn [snd trace log] in Ht;
        eexists; rewrite Ht, <- ?app_assoc;
        (split; [reflexivity|]); rewrite !requests_app, Hr; cbn; lia. }
    exists evs. split; [exact Ht|]. split; [intros _; lia|discriminate].
Qed.

Lemma batch_request_count_witness :
  ∃ evs,
    trace (batch env_old_client args0 None rows0 world0).2 = trace world0 ++ evs
    ∧ (Py.truthy (default [] (None : option (list byte))) = false →
       length rows0 ≤ length (requests evs) ≤ 2 * length rows0)
    ∧ (Py.truthy (default [] (None : option (list byte))) = true →
       is_Some (Args.style args0) →
       length (requests evs) = length rows0).
Proof.
  exact (batch_request_count env_old_client args0 None table0 rows0 world0
           load_table0 eq_refl).
Defined.

(* ===================================================================== *)
(** * A style file without bytes *)
(* ===================================================================== *)

(** X14.  The mode line is chosen by the style path (line 69), the
    request by the bytes read (line 83).  With a style file that holds
    no byte the run prints the STYLE-REF mode line first and then issues
    generate requests only, each with the quality or as a fallback. *)
Theorem empty_style_file_runs_text_only E args fs records rows p :
  mkdir E (Args.out args) = None → new_client E = None →
  csv_records E (Args.csv args) = inr records →
  load_rows records = inr rows →
  Args.style args = Some p → p ≠ [] → read_binary E p = inr [] →
  head (trace (run E args fs).2) = Some (Print ModeStyleRef)
  ∧ text_only (quality_name (Args.quality args))
      (requests (trace (run E args fs).2)).
Proof.
  intros Hd Hc Hr Hl Hs Hp Hb.
  change (run E args fs) with (main E args (start fs)).
  rewrite (main_loaded _ _ records rows) by assumption.
  rewrite (load_style_read _ _ p), Hb by assumption.
  pose (q := quality_name (Args.quality args)).
  pose (Q := λ evs, text_only q (requests evs)).
  assert (Q_nil : Q []) by constructor.
  assert (Q_app : ∀ a b, Q a → Q b → Q (a ++ b)).
  { intros a b Ha Hb'. unfold Q. rewrite requests_app. apply text_only_app; auto. }
  assert (Q_other : ∀ e, (∀ r, e ≠ Request r) → Q [e]).
  { intros [l|r|p'|p' c|d] He; [|destruct (He r eq_refl)|..];
      unfold Q; cbn; constructor. }
  destruct (spec_batch E args (Some []) Q Q_nil Q_app) with (rows := rows)
    (w := log (Print ModeStyleRef) (start fs)) as (evs & Ht & HQ & _);
    try (intros; apply Q_other; discriminate).
  { intros prompt _. split.
    - apply text_only_plain; [reflexivity|constructor].
    - apply text_only_fallback; [reflexivity|constructor]. }
  cbn [trace log start app] in Ht.
  destruct (batch E args (Some []) rows _) as [[x|[]] w2]; cbn [snd trace log] in *;
    rewrite Ht.
  - split; [reflexivity|exact HQ].
  - split; [reflexivity|].
    change (Print ModeStyleRef :: evs) with ([Print ModeStyleRef] ++ evs).
    rewrite !requests_app. cbn [requests]. 
    change (requests [Print ModeStyleRef]) with ([] : list request).
    change (requests [Print (DoneLine (Args.out args))]) with ([] : list request).
    rewrite app_nil_r. exact HQ.
Qed.

Lemma empty_style_file_runs_text_only_witness :
  head (trace (run env_empty_style args_style ∅).2) = Some (Print ModeStyleRef)
  ∧ text_only (Py.lit "high")
      (requests (trace (run env_empty_style args_style ∅).2)).
Proof.
  apply (empty_style_file_runs_text_only env_empty_style args_style ∅ table0 rows0
           (Py.lit "ref.png"));
    [reflexivity|reflexivity|reflexivity|exact load_table0|reflexivity
    |discriminate|reflexivity].
Defined.

(* ===================================================================== *)
(** * The error lines *)
(* ===================================================================== *)

Lemma failed_app a b : failed (a ++ b) = failed a ++ failed b.
Proof. apply omap_app. Qed.

(** X15.  A subject prints an error line exactly when the body of its
    [try] raised, and then one line, with its own name: the console
    tells which subjects failed. *)
Theorem error_line_iff_failure E args style_bytes person_name w :
  ∃ evs,
    trace (guarded E args style_bytes person_name w).2 = trace w ++ evs
    ∧ failed evs
      = match (attempt E args style_bytes (make_prompt person_name)
                 (out_path_of args person_name) w).1 with
        | inr _ => []
        | inl _ => [person_name]
        end.
Proof.
  rewrite guarded_run.
  destruct (spec_attempt E args style_bytes (λ evs, failed evs = []))
    with (prompt := make_prompt person_name) (p := out_path_of args person_name)
         (w := w) as (evs & Ht & HQ & _); auto.
  { intros a b Ha Hb. rewrite failed_app, Ha, Hb. reflexivity. }
  pose proof (attempt_no_exit E args style_bytes (make_prompt person_name)
                (out_path_of args person_name) w) as Hx.
  destruct (attempt E args style_bytes _ _ w) as [[[e|msg]|[]] w1];
    cbn [fst snd trace log] in *.
  - eexists. rewrite Ht, <- !app_assoc. split; [reflexivity|].
    rewrite !failed_app, HQ. reflexivity.
  - destruct (Hx msg eq_refl).
  - eexists. rewrite Ht, <- !app_assoc. split; [reflexivity|].
    rewrite !failed_app, HQ. reflexivity.
Qed.
